(** * Bottled-Kraken: layout reconstruction core

    A shallow embedding of the geometry normalizer, the reading-order
    sorter, the wide-line splitter and the table grid builder of
    [src/main.py], followed by the properties established about them.

    Conventions of the embedding.
    - Python [int] is [Z].
    - A Python [float] that comes from the input is a [pyfloat]: a finite
      value (an exact rational), NaN or an infinity.  Floats the code
      computes from integers (box centres, means, percentiles, the page
      ratios) are exact rationals [Q]; the rounding of binary floating
      point is not modelled.
    - [int(f)] truncates toward zero and raises on NaN and infinities.
    - An exception is the [Raise] outcome of the [exc] monad; a
      [try/except Exception] is a match on that outcome.
    - [sorted] and [list.sort] are stable sorts on a key. *)

From Stdlib Require Import String Ascii ZArith QArith Qabs Qround List Bool Lia Lqa.
From Stdlib Require Import Permutation Sorted.
Import ListNotations.
Local Open Scope Z_scope.
Set Warnings "-register-all".

(* ------------------------------------------------------------------ *)
(** ** Exceptions *)

Inductive exc (A : Type) : Type :=
| Ok (a : A)
| Raise.
Arguments Ok {A} a.
Arguments Raise {A}.

Definition bind {A B : Type} (m : exc A) (k : A -> exc B) : exc B :=
  match m with
  | Ok a => k a
  | Raise => Raise
  end.

Notation "x <- m ;; k" := (bind m (fun x => k))
  (at level 61, m at next level, right associativity).

Fixpoint mapM {A B : Type} (f : A -> exc B) (l : list A) : exc (list B) :=
  match l with
  | [] => Ok []
  | a :: t => b <- f a ;; bs <- mapM f t ;; Ok (b :: bs)
  end.

(* ------------------------------------------------------------------ *)
(** ** Python values held by the geometry attributes of a line *)

Inductive pyfloat : Type :=
| FFin (q : Q)
| FNan
| FInf (negative : bool).

(** The values an attribute of a line record can hold: [None], numbers,
    and lists or tuples of values, nested at will. *)
Inductive pyval : Type :=
| PNone
| PBool (b : bool)
| PInt (z : Z)
| PFloat (f : pyfloat)
| PList (l : list pyval)
| PTuple (l : list pyval).

Definition Point : Type := (pyfloat * pyfloat)%type.
Definition BBox : Type := (Z * Z * Z * Z)%type.

Definition Qltb (a b : Q) : bool := negb (Qle_bool b a).

(** [a < b] on floats; every comparison with NaN is false. *)
Definition float_ltb (a b : pyfloat) : bool :=
  match a, b with
  | FNan, _ | _, FNan => false
  | FFin x, FFin y => Qltb x y
  | FFin _, FInf neg => negb neg
  | FInf neg, FFin _ => neg
  | FInf n1, FInf n2 => n1 && negb n2
  end.

(** [min(xs)] and [max(xs)] on a non-empty list: the running best is
    replaced only by an item strictly below (above) it. *)
Definition py_min (x : pyfloat) (rest : list pyfloat) : pyfloat :=
  fold_left (fun best v => if float_ltb v best then v else best) rest x.

Definition py_max (x : pyfloat) (rest : list pyfloat) : pyfloat :=
  fold_left (fun best v => if float_ltb best v then v else best) rest x.

(** Truncation toward zero. *)
Definition Qtrunc (q : Q) : Z := Z.quot (Qnum q) (Z.pos (Qden q)).

(** [int(f)] for a float [f]. *)
Definition int_of_float (f : pyfloat) : exc Z :=
  match f with
  | FFin q => Ok (Qtrunc q)
  | FNan | FInf _ => Raise
  end.

(** [isinstance(v, (list, tuple))], giving the items. *)
Definition seq_items (v : pyval) : option (list pyval) :=
  match v with
  | PList l | PTuple l => Some l
  | _ => None
  end.

(** [isinstance(v, (int, float))]; [bool] is a subclass of [int]. *)
Definition is_number (v : pyval) : bool :=
  match v with
  | PBool _ | PInt _ | PFloat _ => true
  | _ => false
  end.

(** Truth value of [v] in [if v:]. *)
Definition truthy (v : pyval) : bool :=
  match v with
  | PNone => false
  | PBool b => b
  | PInt z => negb (z =? 0)
  | PFloat (FFin q) => negb (Qeq_bool q 0)
  | PFloat _ => true
  | PList l | PTuple l => match l with [] => false | _ => true end
  end.

(** [float(v)]. *)
Definition py_float (v : pyval) : exc pyfloat :=
  match v with
  | PBool b => Ok (FFin (if b then 1 else 0)%Q)
  | PInt z => Ok (FFin (inject_Z z))
  | PFloat f => Ok f
  | _ => Raise
  end.

(** [int(v)]. *)
Definition py_int (v : pyval) : exc Z :=
  match v with
  | PBool b => Ok (if b then 1 else 0)
  | PInt z => Ok z
  | PFloat f => int_of_float f
  | _ => Raise
  end.

(* ------------------------------------------------------------------ *)
(** ** Stable sorting on a key *)

Section Sorting.
Context {A K : Type}.
Variable leb : K -> K -> bool.
Variable key : A -> K.

(** [x] comes from before every element of [l] in the input, so it goes
    in front of the first element whose key is not below its own. *)
Fixpoint insert_by (x : A) (l : list A) : list A :=
  match l with
  | [] => [x]
  | y :: t => if leb (key x) (key y) then x :: l else y :: insert_by x t
  end.

Definition sorted_by (l : list A) : list A :=
  fold_right insert_by [] l.
End Sorting.

(** Order on pairs as Python compares tuples. *)
Definition lex_leb {K1 K2 : Type} (lt1 : K1 -> K1 -> bool) (le2 : K2 -> K2 -> bool)
    (a b : K1 * K2) : bool :=
  if lt1 (fst a) (fst b) then true
  else if lt1 (fst b) (fst a) then false
  else le2 (snd a) (snd b).

Definition ZZ_leb : Z * Z -> Z * Z -> bool := lex_leb Z.ltb Z.leb.
Definition QZ_leb : Q * Z -> Q * Z -> bool := lex_leb Qltb Z.leb.

(* ------------------------------------------------------------------ *)
(** ** Geometry normalizer *)

(** One item of [for x, y in obj], turned into [(float(x), float(y))]. *)
Definition pair_to_point (v : pyval) : exc Point :=
  match seq_items v with
  | Some [x; y] => fx <- py_float x ;; fy <- py_float y ;; Ok (fx, fy)
  | _ => Raise
  end.

(** [first] is a list or tuple of length 2 whose first item is a number. *)
Definition flat_pair_head (first : pyval) : bool :=
  match seq_items first with
  | Some [a; _] => is_number a
  | _ => false
  end.

(** [first] is a non-empty list or tuple whose first item is a list or
    tuple of length 2. *)
Definition contour_head (first : pyval) : bool :=
  match seq_items first with
  | Some (a :: _) =>
      match seq_items a with
      | Some [_; _] => true
      | _ => false
      end
  | _ => false
  end.

Fixpoint _coerce_points (obj : pyval) : list Point :=
  match obj with
  | PList l | PTuple l =>
      match l with
      | [] => []
      | first :: _ =>
          if flat_pair_head first then
            match mapM pair_to_point l with
            | Ok pts => pts
            | Raise => []
            end
          else if contour_head first then flat_map _coerce_points l
          else []
      end
  | _ => []
  end.

Definition _bbox_from_points (points : list Point) (pad : Z) : exc (option BBox) :=
  match points with
  | [] => Ok None
  | p :: ps =>
      let xs := map fst ps in
      let ys := map snd ps in
      mx <- int_of_float (py_min (fst p) xs) ;;
      my <- int_of_float (py_min (snd p) ys) ;;
      Mx <- int_of_float (py_max (fst p) xs) ;;
      My <- int_of_float (py_max (snd p) ys) ;;
      let x0 := mx - pad in
      let y0 := my - pad in
      let x1 := Mx + pad in
      let y1 := My + pad in
      if (x1 <=? x0) || (y1 <=? y0) then Ok None else Ok (Some (x0, y0, x1, y1))
  end.

(** A Python [str] is the list of its code points. *)
Definition text : Type := list N.

(** A line record of the recognizer, read through [getattr(r, name, None)];
    [r_prediction] is [None] when the record has no prediction. *)
Record KrakenRecord : Type := mkRecord {
  r_bbox : pyval;
  r_boundary : pyval;
  r_polygon : pyval;
  r_baseline : pyval;
  r_prediction : option text
}.

(** The body of the [try] on the explicit box: the box it returns, [None]
    when it is degenerate, [Raise] when unpacking or [int] fails. *)
Definition explicit_box (bbox : pyval) : exc (option BBox) :=
  match seq_items bbox with
  | Some [a; b; c; d] =>
      x0 <- py_int a ;; y0 <- py_int b ;; x1 <- py_int c ;; y1 <- py_int d ;;
      if (x0 <? x1) && (y0 <? y1) then Ok (Some (x0, y0, x1, y1)) else Ok None
  | _ => Raise
  end.

(** One turn of the loop over ["boundary"] and ["polygon"]. *)
Definition outline_box (boundary : pyval) : exc (option BBox) :=
  if truthy boundary then _bbox_from_points (_coerce_points boundary) 2
  else Ok None.

Definition baseline_box (baseline : pyval) : exc (option BBox) :=
  if truthy baseline then
    bb <- _bbox_from_points (_coerce_points baseline) 2 ;;
    match bb with
    | Some (x0, y0, x1, y1) =>
        let vpad := 14 in
        Ok (Some (x0, y0 - vpad, x1, y1 + vpad))
    | None => Ok None
    end
  else Ok None.

(** [if bbox: try: ... except Exception: pass]: the box the [try]
    returns, if it returns one. *)
Definition usable_explicit_box (bbox : pyval) : option BBox :=
  if truthy bbox then
    match explicit_box bbox with
    | Ok (Some bb) => Some bb
    | Ok None | Raise => None
    end
  else None.

Definition record_bbox (r : KrakenRecord) : exc (option BBox) :=
  match usable_explicit_box (r_bbox r) with
  | Some bb => Ok (Some bb)
  | None =>
      b1 <- outline_box (r_boundary r) ;;
      match b1 with
      | Some bb => Ok (Some bb)
      | None =>
          b2 <- outline_box (r_polygon r) ;;
          match b2 with
          | Some bb => Ok (Some bb)
          | None => baseline_box (r_baseline r)
          end
      end
  end.

Definition clamp_bbox (bb : BBox) (w h : Z) : option BBox :=
  let '(x0, y0, x1, y1) := bb in
  Some (Z.max 0 (Z.min (w - 1) x0), Z.max 0 (Z.min (h - 1) y0),
        Z.max 0 (Z.min w x1), Z.max 0 (Z.min h y1)).

(* ------------------------------------------------------------------ *)
(** ** Reading-order sorter *)

Definition READING_TB_LR : Z := 0.
Definition READING_TB_RL : Z := 1.
Definition READING_BT_LR : Z := 2.
Definition READING_BT_RL : Z := 3.

Definition Item : Type := (KrakenRecord * BBox)%type.

Definition bb0 (bb : BBox) : Z := let '(x0, _, _, _) := bb in x0.
Definition bb1 (bb : BBox) : Z := let '(_, y0, _, _) := bb in y0.
Definition bb2 (bb : BBox) : Z := let '(_, _, x1, _) := bb in x1.
Definition bb3 (bb : BBox) : Z := let '(_, _, _, y1) := bb in y1.

Definition bb_center_x (bb : BBox) : Q := inject_Z (bb0 bb + bb2 bb) / 2.
Definition bb_center_y (bb : BBox) : Q := inject_Z (bb1 bb + bb3 bb) / 2.
Definition bb_h (bb : BBox) : Z := bb3 bb - bb1 bb.
Definition bb_w (bb : BBox) : Z := bb2 bb - bb0 bb.

Definition is_fullwidth (image_width : Z) (bb : BBox) : bool :=
  Qtrunc (inject_Z image_width * 0.75) <=? bb_w bb.

(** The percentile helper [q(values, p)]; [None] on an empty list. *)
Definition q (values : list Q) (p : Q) : option Q :=
  match values with
  | [] => None
  | _ =>
      let vals := sorted_by Qle_bool (fun v => v) values in
      let n := Z.of_nat (length vals) in
      let k := (inject_Z (n - 1) * p)%Q in
      let f := Qtrunc k in
      let c := Z.min (f + 1) (n - 1) in
      let at_ (i : Z) := nth (Z.to_nat i) vals 0%Q in
      if f =? c then Some (at_ f)
      else Some (at_ f + (at_ c - at_ f) * (k - inject_Z f))%Q
  end.

Definition Qsum (l : list Q) : Q := fold_left Qplus l 0%Q.

(** [sum(g) / len(g)]: division by zero raises. *)
Definition py_mean (g : list Q) : exc Q :=
  match length g with
  | O => Raise
  | S _ => Ok (Qsum g / inject_Z (Z.of_nat (length g)))%Q
  end.

(** [abs(x - c1) <= abs(x - c2)]. *)
Definition nearer_first (c1 c2 x : Q) : bool :=
  Qle_bool (Qabs (x - c1)) (Qabs (x - c2)).

(** [sum(g) / len(g) if g else c]. *)
Definition mean_or_keep (g : list Q) (c : Q) : exc Q :=
  match g with
  | [] => Ok c
  | _ => py_mean g
  end.

(** One pass of the body of [for _ in range(8)]. *)
Definition lloyd_step (xs : list Q) (c : Q * Q) : exc (Q * Q) :=
  let g1 := filter (nearer_first (fst c) (snd c)) xs in
  let g2 := filter (fun x => negb (nearer_first (fst c) (snd c) x)) xs in
  c1 <- mean_or_keep g1 (fst c) ;;
  c2 <- mean_or_keep g2 (snd c) ;;
  Ok (c1, c2).

Fixpoint lloyd (n : nat) (xs : list Q) (c : Q * Q) : exc (Q * Q) :=
  match n with
  | O => Ok c
  | S m => c' <- lloyd_step xs c ;; lloyd m xs c'
  end.

(** The loop that pairs every record with its box and drops the records
    that have none. *)
Fixpoint collect_items (records : list KrakenRecord) : exc (list Item) :=
  match records with
  | [] => Ok []
  | r :: rest =>
      bb <- record_bbox r ;;
      items <- collect_items rest ;;
      match bb with
      | Some b => Ok ((r, b) :: items)
      | None => Ok items
      end
  end.

(** [sorted(items, key=lambda x: (x[1][1], x[1][0]))]. *)
Definition plain_sort (items : list Item) : list KrakenRecord :=
  map fst (sorted_by ZZ_leb (fun x : Item => (bb1 (snd x), bb0 (snd x))) items).

(** The sort of the branch taken with fewer than 6 body candidates. *)
Definition mode_sort (reading_mode : Z) (items : list Item) : list KrakenRecord :=
  let reverse_y := reading_mode / 2 =? 1 in
  let reverse_x := reading_mode mod 2 =? 1 in
  map fst (sorted_by ZZ_leb
    (fun x : Item => (if negb reverse_y then bb1 (snd x) else - bb1 (snd x),
                      if negb reverse_x then bb0 (snd x) else - bb0 (snd x)))
    items).

Inductive Band : Type := Header | Footer | Midband.

Definition MIN_H : Z := 14.
Definition MARGIN_Y : Q := 10.

Definition band_of (body_top body_bot : Q) (bb : BBox) : Band :=
  if bb_h bb <? MIN_H then Midband
  else if Qltb (inject_Z (bb3 bb)) (body_top - MARGIN_Y) then Header
  else if Qltb (body_bot + MARGIN_Y) (inject_Z (bb1 bb)) then Footer
  else Midband.

Definition is_band (b : Band) (body_top body_bot : Q) (it : Item) : bool :=
  match b, band_of body_top body_bot (snd it) with
  | Header, Header | Footer, Footer | Midband, Midband => true
  | _, _ => false
  end.

Definition sort_key (rev_y rev_x : bool) (it : Item) : Q * Z :=
  let ky := bb_center_y (snd it) in
  let kx := bb0 (snd it) in
  ((if rev_y then - ky else ky)%Q, if rev_x then - kx else kx).

(** A midband line goes to the left column when it is full-width or
    nearer the first centre. *)
Definition in_left_col (image_width : Z) (c1 c2 : Q) (it : Item) : bool :=
  if is_fullwidth image_width (snd it) then true
  else nearer_first c1 c2 (bb_center_x (snd it)).

(** Everything after the two centres are known. *)
Definition assemble (items body_candidates : list Item) (image_width reading_mode : Z)
    (c1 c2 : Q) : list KrakenRecord :=
  let ys_top := map (fun x : Item => inject_Z (bb1 (snd x))) body_candidates in
  let ys_bot := map (fun x : Item => inject_Z (bb3 (snd x))) body_candidates in
  match q ys_top 0.08, q ys_bot 0.92 with
  | Some body_top, Some body_bot =>
      let header := filter (is_band Header body_top body_bot) items in
      let footer := filter (is_band Footer body_top body_bot) items in
      let midband := filter (is_band Midband body_top body_bot) items in
      let rev_y := (reading_mode =? READING_BT_LR) || (reading_mode =? READING_BT_RL) in
      let rev_x := (reading_mode =? READING_TB_RL) || (reading_mode =? READING_BT_RL) in
      let by_key := sorted_by QZ_leb (sort_key rev_y rev_x) in
      let header_sorted := map fst (by_key header) in
      let footer_sorted := map fst (by_key footer) in
      let left_col := filter (in_left_col image_width c1 c2) midband in
      let right_col := filter (fun it => negb (in_left_col image_width c1 c2 it)) midband in
      let left_sorted := map fst (by_key left_col) in
      let right_sorted := map fst (by_key right_col) in
      if reading_mode =? READING_TB_LR then
        header_sorted ++ left_sorted ++ right_sorted ++ footer_sorted
      else if reading_mode =? READING_TB_RL then
        header_sorted ++ right_sorted ++ left_sorted ++ footer_sorted
      else if reading_mode =? READING_BT_LR then
        footer_sorted ++ left_sorted ++ right_sorted ++ header_sorted
      else
        footer_sorted ++ right_sorted ++ left_sorted ++ header_sorted
  | _, _ => plain_sort items
  end.

(** The lines tall enough and narrow enough to count as column text. *)
Definition body_candidates (image_width : Z) (items : list Item) : list Item :=
  filter (fun x : Item => (MIN_H <=? bb_h (snd x)) && negb (is_fullwidth image_width (snd x)))
         items.

(** The sorter once the boxes are known and at least one line has one. *)
Definition order_items (items : list Item) (image_width reading_mode : Z)
    : exc (list KrakenRecord) :=
  let body_candidates := body_candidates image_width items in
  if (length body_candidates <? 6)%nat then Ok (mode_sort reading_mode items)
  else
    let xs := map (fun x : Item => bb_center_x (snd x)) body_candidates in
    match q xs 0.25, q xs 0.75 with
    | Some c1, Some c2 =>
        c <- lloyd 8 xs (c1, c2) ;;
        let '(c1, c2) := if Qltb (snd c) (fst c) then (snd c, fst c) else c in
        if Qltb (Qabs (c2 - c1)) (inject_Z image_width * 0.18) then Ok (plain_sort items)
        else Ok (assemble items body_candidates image_width reading_mode c1 c2)
    | _, _ => Ok (plain_sort items)
    end.

Definition sort_records_reading_order (records : list KrakenRecord)
    (image_width reading_mode : Z) : exc (list KrakenRecord) :=
  items <- collect_items records ;;
  match items with
  | [] => Ok records
  | _ => order_items items image_width reading_mode
  end.

(* ------------------------------------------------------------------ *)
(** ** Text *)

(** The code points of a string literal. *)
Definition codes (s : string) : text := map N_of_ascii (list_ascii_of_string s).

(** The characters [\s] and [str.strip] treat as whitespace. *)
Definition is_space (c : N) : bool :=
  (((9 <=? c) && (c <=? 13)) || ((28 <=? c) && (c <=? 32)) || (c =? 133) || (c =? 160)
   || (c =? 5760) || ((8192 <=? c) && (c <=? 8202)) || (c =? 8232) || (c =? 8233)
   || (c =? 8239) || (c =? 8287) || (c =? 12288))%N.

Fixpoint drop_spaces (s : text) : text :=
  match s with
  | [] => []
  | c :: t => if is_space c then drop_spaces t else s
  end.

Definition starts_with_space (s : text) : bool :=
  match s with
  | [] => false
  | c :: _ => is_space c
  end.

(** [re.compile(r"\s{2,}").split(txt, maxsplit=1)] when it gives two
    parts: what precedes the leftmost run of two or more whitespace
    characters, and what follows that whole run. [None] stands for the
    one-part answer [[txt]]. *)
Fixpoint wide_line_splitter (txt : text) : option (text * text) :=
  match txt with
  | [] => None
  | c :: t =>
      if is_space c && starts_with_space t then Some ([], drop_spaces t)
      else
        match wide_line_splitter t with
        | Some (l, r) => Some (c :: l, r)
        | None => None
        end
  end.

(** [str.strip]. *)
Definition strip (s : text) : text := rev (drop_spaces (rev (drop_spaces s))).

(* ------------------------------------------------------------------ *)
(** ** Record views and the wide-line splitter *)

Record RecordView : Type := mkView {
  idx : Z;
  rv_text : text;
  rv_bbox : option BBox
}.

(** The views one record contributes, numbered from [out_idx]. *)
Definition views_of_record (r : KrakenRecord) (page_w page_h out_idx : Z)
    : exc (list RecordView) :=
  match r_prediction r with
  | None => Ok []
  | Some txt =>
      bb <- record_bbox r ;;
      let whole := [mkView out_idx txt bb] in
      match bb with
      | Some (x0, y0, x1, y1) =>
          let w := x1 - x0 in
          if Qtrunc (inject_Z page_w * 0.80) <? w then
            match wide_line_splitter txt with
            | Some (l, rt) =>
                let left_txt := strip l in
                let right_txt := strip rt in
                let mid := page_w / 2 in
                let left_bb := clamp_bbox (0, y0, mid, y1) page_w page_h in
                let right_bb := clamp_bbox (mid, y0, page_w, y1) page_w page_h in
                let lefts :=
                  match left_bb with
                  | Some b => [mkView out_idx left_txt (Some b)]
                  | None => []
                  end in
                let out_idx' := out_idx + Z.of_nat (length lefts) in
                let rights :=
                  match right_bb with
                  | Some b => [mkView out_idx' right_txt (Some b)]
                  | None => []
                  end in
                Ok (lefts ++ rights)
            | None => Ok whole
            end
          else Ok whole
      | None => Ok whole
      end
  end.

(** The loop of [_ocr_one] over the sorted records. *)
Fixpoint record_views (kr_sorted : list KrakenRecord) (page_w page_h out_idx : Z)
    : exc (list RecordView) :=
  match kr_sorted with
  | [] => Ok []
  | r :: rest =>
      vs <- views_of_record r page_w page_h out_idx ;;
      more <- record_views rest page_w page_h (out_idx + Z.of_nat (length vs)) ;;
      Ok (vs ++ more)
  end.

(** [_ocr_one] from the recognized records on: the sorted records and
    the record views handed to [file_done]. *)
Definition _ocr_one (kr_records : list KrakenRecord) (page_w page_h reading_direction : Z)
    : exc (list KrakenRecord * list RecordView) :=
  kr_sorted <- sort_records_reading_order kr_records page_w reading_direction ;;
  views <- record_views kr_sorted page_w page_h 0 ;;
  Ok (kr_sorted, views).

(* ------------------------------------------------------------------ *)
(** ** Table grid builder *)

Definition has_bbox (rv : RecordView) : bool :=
  match rv_bbox rv with
  | Some _ => true
  | None => false
  end.

(** [rv.bbox[0]] and [rv.bbox[1]]; they are only read on views that
    passed [if rv.bbox]. *)
Definition view_x0 (rv : RecordView) : Z :=
  match rv_bbox rv with
  | Some bb => bb0 bb
  | None => 0
  end.

Definition view_y0 (rv : RecordView) : Z :=
  match rv_bbox rv with
  | Some bb => bb1 bb
  | None => 0
  end.

(** A column under construction: its running anchor ["x"] and its ["items"]. *)
Definition Col : Type := (Z * list RecordView)%type.

Fixpoint place_in_cols (x_threshold x0 : Z) (r : RecordView) (cols : list Col)
    : option (list Col) :=
  match cols with
  | [] => None
  | c :: rest =>
      if Z.abs (fst c - x0) <=? x_threshold then
        Some ((Qtrunc (inject_Z (fst c) * 0.8 + inject_Z x0 * 0.2), snd c ++ [r]) :: rest)
      else
        match place_in_cols x_threshold x0 r rest with
        | Some rest' => Some (c :: rest')
        | None => None
        end
  end.

Definition cluster_step (x_threshold : Z) (cols : list Col) (r : RecordView) : list Col :=
  if has_bbox r then
    match place_in_cols x_threshold (view_x0 r) r cols with
    | Some cols' => cols'
    | None => cols ++ [(view_x0 r, [r])]
    end
  else cols.

Definition cluster_columns (records : list RecordView) (x_threshold : Z)
    : list (list RecordView) :=
  map snd (sorted_by Z.leb (fun c : Col => fst c)
             (fold_left (cluster_step x_threshold) records [])).

Definition is_same_visual_row (a b : RecordView) (page_width : Z) : bool :=
  match rv_bbox a, rv_bbox b with
  | Some (ax0, ay0, ax1, ay1), Some (bx0, by0, bx1, by1) =>
      if 12 <? Z.abs (ay0 - by0) then false
      else
        let mid := page_width / 2 in
        if ((ax1 <? mid) && (mid <? bx0)) || ((bx1 <? mid) && (mid <? ax0)) then false
        else true
  | _, _ => false
  end.

(** The first row whose representative [row[0]] is compatible with [r]
    receives it. *)
Fixpoint place_in_rows (page_width : Z) (r : RecordView) (rows : list (list RecordView))
    : option (list (list RecordView)) :=
  match rows with
  | [] => None
  | row :: rest =>
      let compatible :=
        match row with
        | rep :: _ => is_same_visual_row rep r page_width
        | [] => false
        end in
      if compatible then Some ((row ++ [r]) :: rest)
      else
        match place_in_rows page_width r rest with
        | Some rest' => Some (row :: rest')
        | None => None
        end
  end.

Definition row_step (page_width : Z) (rows : list (list RecordView)) (r : RecordView)
    : list (list RecordView) :=
  match place_in_rows page_width r rows with
  | Some rows' => rows'
  | None => rows ++ [[r]]
  end.

Definition group_rows_by_y (records : list RecordView) (page_width : Z)
    : list (list RecordView) :=
  let sorted_recs :=
    sorted_by ZZ_leb (fun rv => (view_y0 rv, view_x0 rv)) (filter has_bbox records) in
  map (sorted_by Z.leb view_x0) (fold_left (row_step page_width) sorted_recs []).

Definition Zsum (l : list Z) : Z := fold_left Z.add l 0.

(** The anchor of a finished column: [int(sum(xs) / max(1, len(xs)))]. *)
Definition column_x (col : list RecordView) : Z :=
  let xs := map view_x0 (filter has_bbox col) in
  match xs with
  | [] => 0
  | _ => Qtrunc (inject_Z (Zsum xs) / inject_Z (Z.max 1 (Z.of_nat (length xs))))
  end.

(** The scan of [nearest_col] over [col_x[i:]], carrying the best so far. *)
Fixpoint nearest_from (x : Z) (i : nat) (rest : list Z) (best_i : nat) (best_d : Z) : nat :=
  match rest with
  | [] => best_i
  | cx :: t =>
      let d := Z.abs (cx - x) in
      if d <? best_d then nearest_from x (S i) t i d
      else nearest_from x (S i) t best_i best_d
  end.

Definition nearest_col (col_x : list Z) (x : Z) : nat :=
  match col_x with
  | [] => O
  | c0 :: rest => nearest_from x 1%nat rest O (Z.abs (c0 - x))
  end.

(** [line[c] += " " + text] or [line[c] = text]. *)
Fixpoint put_cell (line : list text) (c : nat) (t : text) : list text :=
  match line, c with
  | [], _ => []
  | cell :: rest, O =>
      (match cell with
       | [] => t
       | _ => cell ++ codes " " ++ t
       end) :: rest
  | cell :: rest, S c' => cell :: put_cell rest c' t
  end.

Definition grid_line (col_x : list Z) (row : list RecordView) : list text :=
  fold_left
    (fun line rv => if has_bbox rv then put_cell line (nearest_col col_x (view_x0 rv)) (rv_text rv)
                    else line)
    row (repeat [] (Nat.max 1 (length col_x))).

Definition table_to_rows (records : list RecordView) (page_width : Z) : list (list text) :=
  let rows := group_rows_by_y records page_width in
  let cols := cluster_columns records 45 in
  let col_x := map column_x cols in
  map (grid_line col_x) rows.

(** The grid [_render_file] hands to the CSV and JSON writers. *)
Definition build_grid (record_views : list RecordView) (page_width : Z) : list (list text) :=
  if existsb has_bbox record_views then table_to_rows record_views page_width
  else map (fun rv => [rv_text rv]) record_views.

(* ------------------------------------------------------------------ *)
(** ** Vocabulary of the statements *)


(** A line that exposes the explicit box [(x0, y0, x1, y1)] and the text [t]. *)
Definition box_line (x0 y0 x1 y1 : Z) (t : string) : KrakenRecord :=
  mkRecord (PTuple [PInt x0; PInt y0; PInt x1; PInt y1]) PNone PNone PNone (Some (codes t)).

(** A line with a text and no geometry at all. *)
Definition text_line (t : string) : KrakenRecord :=
  mkRecord PNone PNone PNone PNone (Some (codes t)).

(** A point with finite coordinates. *)
Definition fin_point (p : Q * Q) : Point := (FFin (fst p), FFin (snd p)).

(** Least and greatest of a non-empty list of rationals. *)
Definition qmin (x : Q) (rest : list Q) : Q :=
  fold_left (fun best v => if Qltb v best then v else best) rest x.

Definition qmax (x : Q) (rest : list Q) : Q :=
  fold_left (fun best v => if Qltb best v then v else best) rest x.

(** The bounding box of the points [p :: ps], each bound coerced by
    [int], widened by [px] to the left and right and by [py] above and
    below. *)
Definition padded_box (p : Q * Q) (ps : list (Q * Q)) (px py : Z) : BBox :=
  (Qtrunc (qmin (fst p) (map fst ps)) - px, Qtrunc (qmin (snd p) (map snd ps)) - py,
   Qtrunc (qmax (fst p) (map fst ps)) + px, Qtrunc (qmax (snd p) (map snd ps)) + py).

(** A line whose only geometry is the baseline through the given points. *)
Definition baseline_line (pts : list (Q * Q)) : KrakenRecord :=
  mkRecord PNone PNone PNone
    (PList (map (fun p => PTuple [PFloat (FFin (fst p)); PFloat (FFin (snd p))]) pts)) None.


(** The leading whitespace of a text. *)
Fixpoint take_spaces (s : text) : text :=
  match s with
  | [] => []
  | c :: t => if is_space c then c :: take_spaces t else []
  end.

(** [txt] contains a run of at least two consecutive whitespace characters. *)
Definition has_wide_gap (txt : text) : Prop :=
  exists pre c1 c2 post,
    txt = pre ++ c1 :: c2 :: post /\ is_space c1 = true /\ is_space c2 = true.

(** [gap] is the first run of two or more whitespace characters of
    [txt], taken whole; [l] precedes it and [rt] follows it. No two
    consecutive whitespace characters occur before the second character
    of [gap]. *)
Definition first_wide_gap (txt l gap rt : text) : Prop :=
  txt = l ++ gap ++ rt
  /\ (2 <= length gap)%nat
  /\ forallb is_space gap = true
  /\ starts_with_space rt = false
  /\ forall pre c1 c2 post,
       l ++ firstn 1 gap = pre ++ c1 :: c2 :: post -> is_space c1 && is_space c2 = false.

(** A record view with the box [(x0, y0, x1, y1)]. *)
Definition box_view (x0 y0 x1 y1 : Z) (t : string) : RecordView :=
  mkView 0 (codes t) (Some (x0, y0, x1, y1)).





(** The texts of the lines that have one, in order. *)
Definition predictions (records : list KrakenRecord) : list text :=
  flat_map (fun r => match r_prediction r with Some t => [t] | None => [] end) records.

(** Six lines of one column, listed from the top of the page down. *)
Definition one_column_page : list KrakenRecord :=
  [box_line 100 10 300 30 "1"; box_line 100 50 300 70 "2"; box_line 100 90 300 110 "3";
   box_line 100 130 300 150 "4"; box_line 100 170 300 190 "5"; box_line 100 210 300 230 "6"].

(** A line whose boundary polygon has a NaN coordinate. *)
Definition nan_boundary_line : KrakenRecord :=
  mkRecord PNone
           (PList [PTuple [PFloat FNan; PFloat (FFin 0)];
                   PTuple [PFloat (FFin 10); PFloat (FFin 5)]])
           PNone PNone (Some (codes "x")).

(** Both coordinates of the point are finite. *)
Definition finite_point (p : Point) : bool :=
  match p with
  | (FFin _, FFin _) => true
  | _ => false
  end.

(** The box is not degenerate. *)
Definition valid_box (bb : BBox) : Prop := bb0 bb < bb2 bb /\ bb1 bb < bb3 bb.

(** The page of the two-column scenario: three lines centred at 50, 60
    and 70 px and three centred at 900, 910 and 920 px, given in mixed
    order. *)
Definition two_column_page : list KrakenRecord :=
  [box_line 880 100 940 130 "r1"; box_line 20 100 80 130 "l1"; box_line 30 140 90 170 "l2";
   box_line 890 140 950 170 "r2"; box_line 40 180 100 210 "l3"; box_line 870 180 930 210 "r3"].

(* ------------------------------------------------------------------ *)
(** ** Progress of a batch *)

(** The value [_emit_overall_progress] emits; [frac_in_file] is a finite
    float. *)
Definition _emit_overall_progress (file_idx total_files : Z) (frac_in_file : Q) : Z :=
  if total_files <=? 0 then 0
  else
    let capped := if Qltb frac_in_file 1 then frac_in_file else 1%Q in
    let frac := if Qltb 0 capped then capped else 0%Q in
    let overall := ((inject_Z file_idx + frac) / inject_Z total_files)%Q in
    Qtrunc (overall * 100).

(* ------------------------------------------------------------------ *)
(** ** Boxes drawn and edited on the canvas *)

Definition _safe_int (v : pyval) (default : Z) : Z :=
  match py_int v with
  | Ok z => z
  | Raise => default
  end.

(** [OverlayBoxDialog.get_bbox] for a dialog built for an image of
    [img_w] by [img_h] pixels whose four spin boxes hold the given
    values. *)
Definition get_bbox (img_w img_h : Z) (sp_x0 sp_y0 sp_x1 sp_y1 : Z) : BBox :=
  let _img_w := Z.max 1 img_w in
  let _img_h := Z.max 1 img_h in
  let x0 := Z.min sp_x0 sp_x1 in
  let x1 := Z.max sp_x0 sp_x1 in
  let y0 := Z.min sp_y0 sp_y1 in
  let y1 := Z.max sp_y0 sp_y1 in
  let x1 := if x1 <=? x0 then Z.min _img_w (x0 + 1) else x1 in
  let y1 := if y1 <=? y0 then Z.min _img_h (y0 + 1) else y1 in
  let x0 := Z.max 0 (Z.min (_img_w - 1) x0) in
  let y0 := Z.max 0 (Z.min (_img_h - 1) y0) in
  let x1 := Z.max 1 (Z.min _img_w x1) in
  let y1 := Z.max 1 (Z.min _img_h y1) in
  (x0, y0, x1, y1).

(** The clamping shared by [on_box_drawn] and [on_overlay_rect_changed]
    when the page image is there. *)
Definition clamp_drawn (img_w img_h : Z) (x0 y0 x1 y1 : Z) : BBox :=
  let x0 := Z.max 0 (Z.min (img_w - 1) x0) in
  let y0 := Z.max 0 (Z.min (img_h - 1) y0) in
  let x1 := Z.max 1 (Z.min img_w x1) in
  let y1 := Z.max 1 (Z.min img_h y1) in
  let x1 := if x1 <=? x0 then Z.min img_w (x0 + 1) else x1 in
  let y1 := if y1 <=? y0 then Z.min img_h (y0 + 1) else y1 in
  (x0, y0, x1, y1).

(** The box [on_box_drawn] takes from the drawn rectangle, whose edges
    are given as [rect.left()], [rect.top()], [rect.right()] and
    [rect.bottom()]. *)
Definition drawn_box (img_w img_h : Z) (left top right bottom : pyval) : BBox :=
  let x0 := _safe_int left 0 in
  let y0 := _safe_int top 0 in
  let x1 := _safe_int right 0 in
  let y1 := _safe_int bottom 0 in
  clamp_drawn img_w img_h (Z.min x0 x1) (Z.min y0 y1) (Z.max x0 x1) (Z.max y0 y1).

(** The box [on_overlay_rect_changed] takes from the edges of the
    normalized scene rectangle. *)
Definition overlay_box (img_w img_h : Z) (left top right bottom : pyval) : BBox :=
  clamp_drawn img_w img_h (_safe_int left 0) (_safe_int top 0)
    (_safe_int right 0) (_safe_int bottom 0).

(* ------------------------------------------------------------------ *)
(** ** Editing the lines of a page, with undo and redo *)

Definition STATUS_DONE : Z := 2.

(** What a snapshot keeps of a line. *)
Definition LineState : Type := (text * option BBox)%type.

(** [(recs_state, selected_row)]. *)
Definition UndoSnapshot : Type := (list LineState * Z)%type.

(** [TaskItem.results]: the page text, the recognizer's records, the
    size of the page image and the record views. *)
Record Results : Type := mkResults {
  res_text : text;
  res_kr_records : list KrakenRecord;
  res_im : Z * Z;
  res_recs : list RecordView
}.

(** The fields of a [TaskItem] that editing reads and writes. The last
    element of a stack is its top. *)
Record TaskItem : Type := mkTask {
  status : Z;
  results : option Results;
  edited : bool;
  undo_stack : list UndoSnapshot;
  redo_stack : list UndoSnapshot
}.

Definition _snapshot_recs (recs : list RecordView) : list LineState :=
  map (fun rv => (rv_text rv, rv_bbox rv)) recs.

Fixpoint restore_from (i : Z) (snapshot : list LineState) : list RecordView :=
  match snapshot with
  | [] => []
  | (t, bb) :: rest => mkView i t bb :: restore_from (i + 1) rest
  end.

Definition _restore_recs (snapshot : list LineState) : list RecordView :=
  restore_from 0 snapshot.

(** [for i, rv in enumerate(recs): rv.idx = i], from [i] on. *)
Fixpoint renumber_from (i : Z) (recs : list RecordView) : list RecordView :=
  match recs with
  | [] => []
  | rv :: rest => mkView i (rv_text rv) (rv_bbox rv) :: renumber_from (i + 1) rest
  end.

(** ["\n".join(lines)]. *)
Fixpoint join_lines (lines : list text) : text :=
  match lines with
  | [] => []
  | t :: rest =>
      match rest with
      | [] => t
      | _ => t ++ 10%N :: join_lines rest
      end
  end.

(** ["\n".join([r.text for r in recs]).strip()]. *)
Definition page_text (recs : list RecordView) : text :=
  strip (join_lines (map rv_text recs)).

(** [stack.pop()]: the stack without its top, and the top. *)
Fixpoint pop_last {A : Type} (l : list A) : option (list A * A) :=
  match l with
  | [] => None
  | x :: t =>
      match pop_last t with
      | Some (t', y) => Some (x :: t', y)
      | None => Some ([], x)
      end
  end.

(** [sel] is the row [list_lines.currentRow()] gives when the snapshot
    is taken. *)
Definition _push_undo (task : TaskItem) (sel : Z) : TaskItem :=
  match results task with
  | None => task
  | Some r =>
      let snap := (_snapshot_recs (res_recs r), sel) in
      let stack := undo_stack task ++ [snap] in
      let stack := if (300 <? length stack)%nat then tl stack else stack in
      mkTask (status task) (results task) (edited task) stack []
  end.

(** The part of [_sync_ui_after_recs_change] that writes the task: the
    lines are numbered by position and the page text is rebuilt. *)
Definition _sync_ui_after_recs_change (task : TaskItem) : TaskItem :=
  match results task with
  | None => task
  | Some r =>
      let recs := renumber_from 0 (res_recs r) in
      mkTask (status task)
             (Some (mkResults (page_text recs) (res_kr_records r) (res_im r) recs))
             (edited task) (undo_stack task) (redo_stack task)
  end.

Definition _apply_snapshot (task : TaskItem) (snap : UndoSnapshot) : TaskItem :=
  match results task with
  | None => task
  | Some r =>
      let recs := _restore_recs (fst snap) in
      _sync_ui_after_recs_change
        (mkTask (status task)
                (Some (mkResults (page_text recs) (res_kr_records r) (res_im r) recs))
                true (undo_stack task) (redo_stack task))
  end.

(** [undo] on the current task; [cur_sel] is the selected row. *)
Definition undo (task : TaskItem) (cur_sel : Z) : TaskItem :=
  if negb (status task =? STATUS_DONE) then task
  else
    match results task with
    | None => task
    | Some r =>
        match pop_last (undo_stack task) with
        | None => task
        | Some (rest, snap) =>
            _apply_snapshot
              (mkTask (status task) (results task) (edited task) rest
                      (redo_stack task ++ [(_snapshot_recs (res_recs r), cur_sel)]))
              snap
        end
    end.

Definition redo (task : TaskItem) (cur_sel : Z) : TaskItem :=
  if negb (status task =? STATUS_DONE) then task
  else
    match results task with
    | None => task
    | Some r =>
        match pop_last (redo_stack task) with
        | None => task
        | Some (rest, snap) =>
            _apply_snapshot
              (mkTask (status task) (results task) (edited task)
                      (undo_stack task ++ [(_snapshot_recs (res_recs r), cur_sel)]) rest)
              snap
        end
    end.

(** [0 <= row < len(recs)]. *)
Definition row_in_range {A : Type} (row : Z) (recs : list A) : bool :=
  (0 <=? row) && (row <? Z.of_nat (length recs)).

(** [recs.pop(n)], [recs.insert(n, x)] and [recs[n] = x] for an index
    [n] that is not negative. *)
Definition list_pop {A : Type} (n : nat) (l : list A) : list A :=
  firstn n l ++ skipn (S n) l.

Definition list_insert {A : Type} (n : nat) (x : A) (l : list A) : list A :=
  firstn n l ++ x :: skipn n l.

Definition list_set {A : Type} (n : nat) (x : A) (l : list A) : list A :=
  if (n <? length l)%nat then firstn n l ++ x :: skipn (S n) l else l.

(** The task once [recs] has been changed in place and [edited] set. *)
Definition with_recs (task : TaskItem) (r : Results) (recs : list RecordView) : TaskItem :=
  mkTask (status task)
         (Some (mkResults (res_text r) (res_kr_records r) (res_im r) recs))
         true (undo_stack task) (redo_stack task).

(** The editing functions unpack [task.results] without a test, which
    raises when there are none. *)
Definition _move_line (task : TaskItem) (row direction sel : Z) : exc TaskItem :=
  match results task with
  | None => Raise
  | Some r =>
      let recs := res_recs r in
      let new_row := row + direction in
      if negb (row_in_range row recs) || negb (row_in_range new_row recs) then Ok task
      else
        let task := _push_undo task sel in
        match nth_error recs (Z.to_nat new_row), nth_error recs (Z.to_nat row) with
        | Some a, Some b =>
            Ok (_sync_ui_after_recs_change
                  (with_recs task r
                     (list_set (Z.to_nat new_row) b (list_set (Z.to_nat row) a recs))))
        | _, _ => Raise
        end
  end.

Definition _move_line_to (task : TaskItem) (from_row to_row sel : Z) : exc TaskItem :=
  match results task with
  | None => Raise
  | Some r =>
      let recs := res_recs r in
      if negb (row_in_range from_row recs) then Ok task
      else
        let to_row := Z.max 0 (Z.min (Z.of_nat (length recs) - 1) to_row) in
        if from_row =? to_row then Ok (_sync_ui_after_recs_change task)
        else
          let task := _push_undo task sel in
          match nth_error recs (Z.to_nat from_row) with
          | Some rv =>
              Ok (_sync_ui_after_recs_change
                    (with_recs task r
                       (list_insert (Z.to_nat to_row) rv (list_pop (Z.to_nat from_row) recs))))
          | None => Raise
          end
  end.

Definition _delete_line (task : TaskItem) (row sel : Z) : exc TaskItem :=
  match results task with
  | None => Raise
  | Some r =>
      let recs := res_recs r in
      if negb (row_in_range row recs) then Ok task
      else
        let task := _push_undo task sel in
        Ok (_sync_ui_after_recs_change (with_recs task r (list_pop (Z.to_nat row) recs)))
  end.

(** [_add_line] up to the update of the lines; [dialog] is the text the
    input dialog returned, [None] when it was cancelled. *)
Definition _add_line (task : TaskItem) (insert_row : Z) (dialog : option text) (sel : Z)
    : exc TaskItem :=
  match dialog with
  | None => Ok task
  | Some new_text =>
      match strip new_text with
      | [] => Ok task
      | new_text =>
          match results task with
          | None => Raise
          | Some r =>
              let recs := res_recs r in
              let insert_row := Z.max 0 (Z.min (Z.of_nat (length recs)) insert_row) in
              let task := _push_undo task sel in
              Ok (_sync_ui_after_recs_change
                    (with_recs task r
                       (list_insert (Z.to_nat insert_row) (mkView insert_row new_text None)
                          recs)))
          end
      end
  end.

(** [on_canvas_delete_box] on the current task. *)
Definition on_canvas_delete_box (task : TaskItem) (i sel : Z) : TaskItem :=
  match results task with
  | None => task
  | Some r =>
      if negb (status task =? STATUS_DONE) then task
      else
        let recs := res_recs r in
        if negb (row_in_range i recs) then task
        else
          match nth_error recs (Z.to_nat i) with
          | Some rv =>
              _sync_ui_after_recs_change
                (with_recs (_push_undo task sel) r
                   (list_set (Z.to_nat i) (mkView (idx rv) (rv_text rv) None) recs))
          | None => task
          end
  end.

Definition bbox_eqb (a b : BBox) : bool :=
  (bb0 a =? bb0 b) && (bb1 a =? bb1 b) && (bb2 a =? bb2 b) && (bb3 a =? bb3 b).

(** [on_overlay_rect_changed] on the current task, for the edges of the
    normalized scene rectangle. *)
Definition on_overlay_rect_changed (task : TaskItem) (i : Z) (left top right bottom : pyval)
    (sel : Z) : TaskItem :=
  match results task with
  | None => task
  | Some r =>
      if negb (status task =? STATUS_DONE) then task
      else
        let recs := res_recs r in
        if negb (row_in_range i recs) then task
        else
          match nth_error recs (Z.to_nat i) with
          | Some rv =>
              let new := overlay_box (fst (res_im r)) (snd (res_im r)) left top right bottom in
              let same :=
                match rv_bbox rv with
                | Some old => bbox_eqb old new
                | None => false
                end in
              if same then task
              else
                _sync_ui_after_recs_change
                  (with_recs (_push_undo task sel) r
                     (list_set (Z.to_nat i) (mkView (idx rv) (rv_text rv) (Some new)) recs))
          | None => task
          end
  end.

(** [on_box_drawn] on the current task. [pending_new_line_box] and
    [pending_box_for_row] are the window's two pending marks; [dialog]
    is the text the input dialog returned, [None] when it was cancelled. *)
Definition on_box_drawn (task : TaskItem) (left top right bottom : pyval)
    (pending_new_line_box : bool) (pending_box_for_row : option Z)
    (dialog : option text) (sel : Z) : TaskItem :=
  match results task with
  | None => task
  | Some r =>
      if negb (status task =? STATUS_DONE) then task
      else
        let recs := res_recs r in
        let box := drawn_box (fst (res_im r)) (snd (res_im r)) left top right bottom in
        if pending_new_line_box then
          let new_txt := strip (match dialog with Some t => t | None => [] end) in
          _sync_ui_after_recs_change
            (with_recs (_push_undo task sel) r
               (recs ++ [mkView (Z.of_nat (length recs)) new_txt (Some box)]))
        else
          match pending_box_for_row with
          | None => task
          | Some row =>
              if negb (row_in_range row recs) then task
              else
                match nth_error recs (Z.to_nat row) with
                | Some rv =>
                    _sync_ui_after_recs_change
                      (with_recs (_push_undo task sel) r
                         (list_set (Z.to_nat row) (mkView (idx rv) (rv_text rv) (Some box))
                            recs))
                | None => task
                end
          end
  end.

(** [on_canvas_edit_box] on the current task; [dialog] holds the values
    of the four spin boxes when the dialog was accepted, [None] when it
    was not. *)
Definition on_canvas_edit_box (task : TaskItem) (i : Z) (dialog : option (Z * Z * Z * Z))
    (sel : Z) : TaskItem :=
  match results task with
  | None => task
  | Some r =>
      if negb (status task =? STATUS_DONE) then task
      else
        let recs := res_recs r in
        if negb (row_in_range i recs) then task
        else
          match dialog, nth_error recs (Z.to_nat i) with
          | Some (sp_x0, sp_y0, sp_x1, sp_y1), Some rv =>
              let box := get_bbox (fst (res_im r)) (snd (res_im r)) sp_x0 sp_y0 sp_x1 sp_y1 in
              _sync_ui_after_recs_change
                (with_recs (_push_undo task sel) r
                   (list_set (Z.to_nat i) (mkView (idx rv) (rv_text rv) (Some box)) recs))
          | _, _ => task
          end
  end.

(** The task [on_file_done] leaves for a page that [_ocr_one] finished. *)
Definition on_file_done (page_text : text) (kr_records : list KrakenRecord) (im : Z * Z)
    (recs : list RecordView) : TaskItem :=
  mkTask STATUS_DONE (Some (mkResults page_text kr_records im recs)) false [] [].


(* ------------------------------------------------------------------ *)
(** ** Vocabulary of the further properties *)

(** One editing action of the user on the lines of the current page,
    with the arguments its handler receives. *)
Inductive Edit : Type :=
| MoveLine (row direction : Z)
| MoveLineTo (from_row to_row : Z)
| DeleteLine (row : Z)
| AddLine (insert_row : Z) (dialog : option text)
| DeleteBox (i : Z)
| EditBox (i : Z) (dialog : option (Z * Z * Z * Z))
| RectChanged (i : Z) (left top right bottom : pyval)
| BoxDrawn (left top right bottom : pyval) (pending_new_line_box : bool)
    (pending_box_for_row : option Z) (dialog : option text).

(** The handler of an action, run on the current task while the row
    [sel] is selected. *)
Definition run_edit (e : Edit) (task : TaskItem) (sel : Z) : exc TaskItem :=
  match e with
  | MoveLine row direction => _move_line task row direction sel
  | MoveLineTo from_row to_row => _move_line_to task from_row to_row sel
  | DeleteLine row => _delete_line task row sel
  | AddLine insert_row dialog => _add_line task insert_row dialog sel
  | DeleteBox i => Ok (on_canvas_delete_box task i sel)
  | EditBox i dialog => Ok (on_canvas_edit_box task i dialog sel)
  | RectChanged i x0 y0 x1 y1 =>
      Ok (on_overlay_rect_changed task i x0 y0 x1 y1 sel)
  | BoxDrawn x0 y0 x1 y1 pending_new pending_row dialog =>
      Ok (on_box_drawn task x0 y0 x1 y1 pending_new pending_row dialog sel)
  end.

(** The lines of the task are numbered by position and its page text is
    the joined text of its lines. *)
Definition in_step (task : TaskItem) : Prop :=
  match results task with
  | Some r =>
      renumber_from 0 (res_recs r) = res_recs r /\ res_text r = page_text (res_recs r)
  | None => True
  end.



(** A finished page of three lines. *)
Definition three_lines : list RecordView :=
  [mkView 0 (codes "a") (Some (10, 10, 100, 30)); mkView 1 (codes "b") None;
   mkView 2 (codes "c") (Some (10, 50, 100, 70))].

Definition three_line_task : TaskItem :=
  on_file_done (page_text three_lines) [] (800, 600) three_lines.

(** The same page after its second line was deleted while the row 1
    was selected. *)
Definition three_line_task_edited : TaskItem :=
  match run_edit (DeleteLine 1) three_line_task 1 with
  | Ok task => task
  | Raise => three_line_task
  end.

(** [t] occurs in [cell] as a run of consecutive characters. *)
Definition occurs_in (t cell : text) : Prop := exists pre post, cell = pre ++ t ++ post.

(** Three boxed views of two visual rows and two columns, and a view
    without a box. *)
Definition small_table : list RecordView :=
  [box_view 10 10 100 30 "a"; box_view 600 12 700 32 "b"; box_view 12 50 100 70 "c";
   mkView 3 (codes "d") None].

(** The sort key of the branch for fewer than 6 body candidates. *)
Definition mode_key (reading_mode : Z) (x : Item) : Z * Z :=
  (if negb (reading_mode / 2 =? 1) then bb1 (snd x) else - bb1 (snd x),
   if negb (reading_mode mod 2 =? 1) then bb0 (snd x) else - bb0 (snd x)).

(** A page of a wide line with a gap and a line without geometry, and
    the record views an 800 by 600 page gives for it. *)
Definition split_page : list KrakenRecord :=
  [box_line 60 10 740 40 "AAAA    BBBB"; text_line "t"].

Definition split_page_views : list RecordView :=
  [mkView 0 (codes "AAAA") (Some (0, 10, 400, 40));
   mkView 1 (codes "BBBB") (Some (400, 10, 800, 40));
   mkView 2 (codes "t") None].


(* ================================================================== *)
(** * Properties *)

(** ** Stable sorting *)

Section SortingFacts.
Context {A K : Type}.
Variable leb : K -> K -> bool.
Variable key : A -> K.

Lemma insert_by_perm (x : A) (l : list A) :
  Permutation (insert_by leb key x l) (x :: l).
Proof.
  induction l as [|y t IH]; simpl.
  - apply Permutation_refl.
  - destruct (leb (key x) (key y)).
    + apply Permutation_refl.
    + eapply perm_trans; [apply perm_skip, IH | apply perm_swap].
Qed.

Lemma sorted_by_perm (l : list A) : Permutation (sorted_by leb key l) l.
Proof.
  induction l as [|x t IH]; simpl.
  - constructor.
  - eapply perm_trans; [apply insert_by_perm | now apply perm_skip].
Qed.

Lemma insert_by_sorted (x : A) (l : list A) :
  (forall a b, leb a b = false -> leb b a = true) ->
  Sorted (fun u v => leb (key u) (key v) = true) l ->
  Sorted (fun u v => leb (key u) (key v) = true) (insert_by leb key x l).
Proof.
  intros Htot. induction 1 as [|y t Ht IH Hy]; simpl.
  - repeat constructor.
  - destruct (leb (key x) (key y)) eqn:E.
    + constructor; [now constructor | now constructor].
    + constructor; [exact IH|].
      destruct t as [|z t']; simpl.
      * constructor. now apply Htot.
      * destruct (leb (key x) (key z)); constructor.
        -- now apply Htot.
        -- now inversion Hy.
Qed.

(** The output is in ascending key order whenever the order is total. *)
Lemma sorted_by_sorted (l : list A) :
  (forall a b, leb a b = false -> leb b a = true) ->
  Sorted (fun u v => leb (key u) (key v) = true) (sorted_by leb key l).
Proof.
  intros Htot. induction l as [|x t IH]; simpl; [constructor|].
  now apply insert_by_sorted.
Qed.

Lemma sorted_by_length (l : list A) : length (sorted_by leb key l) = length l.
Proof. apply Permutation_length, sorted_by_perm. Qed.

Lemma sorted_by_in (l : list A) (x : A) : In x (sorted_by leb key l) <-> In x l.
Proof.
  split; apply Permutation_in;
    [apply sorted_by_perm | apply Permutation_sym, sorted_by_perm].
Qed.
End SortingFacts.

Lemma ZZ_leb_total (a b : Z * Z) : ZZ_leb a b = false -> ZZ_leb b a = true.
Proof.
  unfold ZZ_leb, lex_leb.
  destruct (fst a <? fst b) eqn:E1; [discriminate|].
  destruct (fst b <? fst a) eqn:E2; [reflexivity|].
  intros H. apply Z.leb_gt in H. apply Z.leb_le. lia.
Qed.



(** ** Lloyd iterations never fail *)





(** ** The sorter permutes the lines that have a box *)










(** ** Truncation *)

Lemma Qtrunc_nonneg (x : Q) : (0 <= x)%Q -> Qtrunc x = Qfloor x.
Proof.
  destruct x as [n d]. unfold Qle, Qtrunc, Qfloor; simpl. intros H.
  apply Z.quot_div_nonneg; lia.
Qed.

Lemma Qtrunc_neg (x : Q) : (x <= 0)%Q -> Qtrunc x = Qceiling x.
Proof.
  destruct x as [n d]. unfold Qle, Qtrunc, Qceiling, Qfloor; simpl. intros H.
  replace n with (- (- n)) at 1 by lia.
  rewrite Z.quot_opp_l by lia. f_equal.
  apply Z.quot_div_nonneg; lia.
Qed.

Lemma Qtrunc_mono (x y : Q) : (x <= y)%Q -> Qtrunc x <= Qtrunc y.
Proof.
  intros H.
  destruct (Qlt_le_dec x 0) as [Hx|Hx]; destruct (Qlt_le_dec y 0) as [Hy|Hy].
  - rewrite !Qtrunc_neg by now apply Qlt_le_weak. now apply Qceiling_resp_le.
  - rewrite (Qtrunc_neg x) by now apply Qlt_le_weak.
    rewrite (Qtrunc_nonneg y) by assumption.
    assert (Qceiling x <= 0).
    { replace 0 with (Qceiling 0) by reflexivity.
      apply Qceiling_resp_le. now apply Qlt_le_weak. }
    assert (0 <= Qfloor y).
    { replace 0 with (Qfloor 0) by reflexivity. now apply Qfloor_resp_le. }
    lia.
  - exfalso. apply (Qlt_irrefl 0).
    eapply Qle_lt_trans; [exact Hx|]. eapply Qle_lt_trans; [exact H | exact Hy].
  - rewrite !Qtrunc_nonneg by assumption. now apply Qfloor_resp_le.
Qed.

(** ** The percentile helper stays between the extremes *)



(** ** Means stay between the extremes *)









(** ** Bounding boxes of finite points *)

Lemma Qltb_lt (a b : Q) : Qltb a b = true <-> (a < b)%Q.
Proof.
  unfold Qltb. rewrite negb_true_iff. split; intros H.
  - apply Qnot_le_lt. intros Hle. apply Qle_bool_iff in Hle. congruence.
  - destruct (Qle_bool b a) eqn:E; [|reflexivity].
    apply Qle_bool_iff in E. exfalso. now apply (Qlt_not_le a b).
Qed.

Lemma Qltb_ge (a b : Q) : Qltb a b = false <-> (b <= a)%Q.
Proof.
  unfold Qltb. rewrite negb_false_iff. apply Qle_bool_iff.
Qed.

Lemma qmin_least (rest : list Q) (x : Q) :
  (qmin x rest <= x)%Q /\ forall y, In y rest -> (qmin x rest <= y)%Q.
Proof.
  revert x; induction rest as [|v t IH]; intros x; simpl.
  - split; [apply Qle_refl | tauto].
  - unfold qmin; cbn [fold_left]. fold (qmin (if Qltb v x then v else x) t).
    destruct (IH (if Qltb v x then v else x)) as [H1 H2].
    destruct (Qltb v x) eqn:E.
    + apply Qltb_lt in E. split.
      * eapply Qle_trans; [exact H1 | now apply Qlt_le_weak].
      * intros y [<-|Hy]; auto.
    + apply Qltb_ge in E. split; [exact H1|].
      intros y [<-|Hy]; auto. eapply Qle_trans; eauto.
Qed.

Lemma qmax_greatest (rest : list Q) (x : Q) :
  (x <= qmax x rest)%Q /\ forall y, In y rest -> (y <= qmax x rest)%Q.
Proof.
  revert x; induction rest as [|v t IH]; intros x; simpl.
  - split; [apply Qle_refl | tauto].
  - unfold qmax; cbn [fold_left]. fold (qmax (if Qltb x v then v else x) t).
    destruct (IH (if Qltb x v then v else x)) as [H1 H2].
    destruct (Qltb x v) eqn:E.
    + apply Qltb_lt in E. split.
      * eapply Qle_trans; [apply Qlt_le_weak, E | exact H1].
      * intros y [<-|Hy]; auto.
    + apply Qltb_ge in E. split; [exact H1|].
      intros y [<-|Hy]; auto. eapply Qle_trans; eauto.
Qed.

Lemma qmin_in (rest : list Q) (x : Q) : In (qmin x rest) (x :: rest).
Proof.
  revert x; induction rest as [|v t IH]; intros x; [now left|].
  unfold qmin; cbn [fold_left]. fold (qmin (if Qltb v x then v else x) t).
  destruct (IH (if Qltb v x then v else x)) as [H|H].
  - rewrite <- H. destruct (Qltb v x); [right; now left | now left].
  - right; now right.
Qed.

Lemma qmax_in (rest : list Q) (x : Q) : In (qmax x rest) (x :: rest).
Proof.
  revert x; induction rest as [|v t IH]; intros x; [now left|].
  unfold qmax; cbn [fold_left]. fold (qmax (if Qltb x v then v else x) t).
  destruct (IH (if Qltb x v then v else x)) as [H|H].
  - rewrite <- H. destruct (Qltb x v); [right; now left | now left].
  - right; now right.
Qed.

Lemma qmin_le_qmax (rest : list Q) (x : Q) : (qmin x rest <= qmax x rest)%Q.
Proof.
  eapply Qle_trans;
    [exact (proj1 (qmin_least rest x)) | exact (proj1 (qmax_greatest rest x))].
Qed.

Lemma py_min_finite (rest : list Q) (x : Q) :
  py_min (FFin x) (map FFin rest) = FFin (qmin x rest).
Proof.
  revert x; induction rest as [|v t IH]; intros x; [reflexivity|].
  unfold py_min, qmin; cbn [fold_left map float_ltb].
  destruct (Qltb v x); apply IH.
Qed.

Lemma py_max_finite (rest : list Q) (x : Q) :
  py_max (FFin x) (map FFin rest) = FFin (qmax x rest).
Proof.
  revert x; induction rest as [|v t IH]; intros x; [reflexivity|].
  unfold py_max, qmax; cbn [fold_left map float_ltb].
  destruct (Qltb x v); apply IH.
Qed.

Lemma bbox_from_finite_points (p : Q * Q) (ps : list (Q * Q)) (pad : Z) :
  0 < pad ->
  _bbox_from_points (map fin_point (p :: ps)) pad = Ok (Some (padded_box p ps pad pad)).
Proof.
  intros Hpad. unfold _bbox_from_points. cbn [map].
  rewrite !map_map. cbn [fin_point fst snd].
  rewrite <- (map_map fst FFin), <- (map_map snd FFin).
  rewrite !py_min_finite, !py_max_finite. cbn [int_of_float bind].
  pose proof (Qtrunc_mono _ _ (qmin_le_qmax (map fst ps) (fst p))).
  pose proof (Qtrunc_mono _ _ (qmin_le_qmax (map snd ps) (snd p))).
  replace (_ <=? _) with false by (symmetry; apply Z.leb_gt; lia).
  replace (_ <=? _) with false by (symmetry; apply Z.leb_gt; lia).
  reflexivity.
Qed.

Lemma coerced_points_truthy (v : pyval) : _coerce_points v <> [] -> truthy v = true.
Proof.
  destruct v as [| | | |l|l]; simpl; try congruence; destruct l; simpl; congruence.
Qed.


Lemma baseline_box_finite (v : pyval) (p : Q * Q) (ps : list (Q * Q)) :
  _coerce_points v = map fin_point (p :: ps) ->
  baseline_box v = Ok (Some (padded_box p ps 2 16)).
Proof.
  intros E. unfold baseline_box.
  rewrite coerced_points_truthy by (rewrite E; discriminate).
  rewrite E, bbox_from_finite_points by lia.
  unfold padded_box; cbn [bind]; cbv zeta. do 2 apply f_equal.
  repeat match goal with |- (_, _) = (_, _) => f_equal end; lia.
Qed.

(** ** Priority of the explicit box *)




(** ** Boxes from baselines *)

(** C5, as amended. A line whose explicit box, boundary and polygon give
    no box, and whose baseline coerces to a non-empty set of finite
    points, gets the bounding box of those points, each bound truncated
    toward zero, widened by 2 px to the left and right and by 16 px
    (2 + 14) above and below. *)
Theorem baseline_box_is_padded_2_and_16 (r : KrakenRecord) (p : Q * Q) (ps : list (Q * Q)) :
  usable_explicit_box (r_bbox r) = None ->
  outline_box (r_boundary r) = Ok None ->
  outline_box (r_polygon r) = Ok None ->
  _coerce_points (r_baseline r) = map fin_point (p :: ps) ->
  record_bbox r
  = Ok (Some (Qtrunc (qmin (fst p) (map fst ps)) - 2,
              Qtrunc (qmin (snd p) (map snd ps)) - 16,
              Qtrunc (qmax (fst p) (map fst ps)) + 2,
              Qtrunc (qmax (snd p) (map snd ps)) + 16)).
Proof.
  intros He Hb Hp Hpts. unfold record_bbox.
  rewrite He, Hb, Hp. cbn [bind].
  now rewrite (baseline_box_finite _ _ _ Hpts).
Qed.

Lemma baseline_box_is_padded_2_and_16_witness :
  record_bbox (baseline_line [(10, 100); (200, 104)]%Q)
  = Ok (Some (Qtrunc (qmin 10 [200]%Q) - 2, Qtrunc (qmin 100 [104]%Q) - 16,
              Qtrunc (qmax 10 [200]%Q) + 2, Qtrunc (qmax 100 [104]%Q) + 16)).
Proof.
  apply (baseline_box_is_padded_2_and_16 (baseline_line [(10, 100); (200, 104)]%Q)
           (10, 100)%Q [(200, 104)%Q]); reflexivity.
Defined.

(** C5 as stated fails: the vertical padding is 16 px and not 14, and
    the bounds are truncated toward zero and not floored. *)
Lemma baseline_pad_is_not_14 :
  (exists bb, record_bbox (baseline_line [(10, 100); (200, 104)]%Q) = Ok (Some bb)
              /\ bb1 bb = 84 /\ bb1 bb <> Qfloor (qmin 100 [104]%Q) - 14
              /\ bb3 bb = 120 /\ bb3 bb <> Qfloor (qmax 100 [104]%Q) + 14)
  /\ (exists bb, record_bbox (baseline_line [(10, - (1 # 2)); (200, - (1 # 2))]%Q) = Ok (Some bb)
                 /\ bb1 bb = -16 /\ Qfloor (qmin (- (1 # 2)) [- (1 # 2)]%Q) = -1).
Proof.
  split.
  - exists (8, 84, 202, 120). repeat split; try reflexivity; vm_compute; discriminate.
  - exists (8, -16, 202, 16). repeat split; reflexivity.
Qed.

(** ** The split at the first wide gap *)

Lemma take_drop_spaces (s : text) : take_spaces s ++ drop_spaces s = s.
Proof.
  induction s as [|c t IH]; simpl; [reflexivity|].
  destruct (is_space c); simpl; [now rewrite IH | reflexivity].
Qed.

Lemma take_spaces_all (s : text) : forallb is_space (take_spaces s) = true.
Proof.
  induction s as [|c t IH]; simpl; [reflexivity|].
  destruct (is_space c) eqn:E; simpl; [now rewrite E | reflexivity].
Qed.

Lemma drop_spaces_head (s : text) : starts_with_space (drop_spaces s) = false.
Proof.
  induction s as [|c t IH]; simpl; [reflexivity|].
  destruct (is_space c) eqn:E; simpl; [exact IH | exact E].
Qed.

Lemma wide_line_splitter_sound (txt l rt : text) :
  wide_line_splitter txt = Some (l, rt) -> exists gap, first_wide_gap txt l gap rt.
Proof.
  revert l rt; induction txt as [|c t IH]; intros l rt; simpl; [discriminate|].
  destruct (is_space c && starts_with_space t) eqn:E.
  - intros [= <- <-]. apply andb_true_iff in E as [Ec Et].
    exists (c :: take_spaces t). repeat split.
    + simpl. now rewrite take_drop_spaces.
    + destruct t as [|c2 t']; simpl in *; [discriminate|]. rewrite Et. simpl. lia.
    + simpl. now rewrite Ec, take_spaces_all.
    + apply drop_spaces_head.
    + intros pre c1 c2 post He. simpl in He.
      apply (f_equal (@length N)) in He. rewrite length_app in He. simpl in He. lia.
  - destruct (wide_line_splitter t) as [[l' rt']|]; [|discriminate].
    intros [= <- <-].
    destruct (IH l' rt' eq_refl) as (gap & Ht & Hlen & Hall & Hrt & Hfirst).
    exists gap. repeat split; auto.
    + simpl. now rewrite <- Ht.
    + intros pre c1 c2 post He.
      destruct pre as [|x pre'].
      * simpl in He. injection He as <- He.
        assert (starts_with_space t = is_space c2) as Hh.
        { rewrite Ht. destruct gap as [|g gs]; [simpl in Hlen; lia|].
          destruct l' as [|y l'']; simpl in He |- *; now injection He as <-. }
        now rewrite <- Hh.
      * simpl in He. injection He as _ He. now apply (Hfirst pre' c1 c2 post).
Qed.

Lemma wide_line_splitter_complete (txt : text) :
  has_wide_gap txt -> exists l rt, wide_line_splitter txt = Some (l, rt).
Proof.
  intros (pre & c1 & c2 & post & -> & H1 & H2).
  induction pre as [|x pre IH]; simpl.
  - rewrite H1, H2. simpl. eauto.
  - destruct (is_space x && starts_with_space (pre ++ c1 :: c2 :: post)); [eauto|].
    destruct IH as (l & rt & ->). eauto.
Qed.

Lemma exceeds_80_percent (page_w w : Z) :
  0 <= page_w ->
  (inject_Z page_w * 0.80 < inject_Z w)%Q ->
  (Qtrunc (inject_Z page_w * 0.80) <? w) = true.
Proof.
  intros Hp Hw. apply Z.ltb_lt.
  assert (0 <= inject_Z page_w)%Q by (rewrite <- (Zle_Qle 0); exact Hp).
  rewrite Qtrunc_nonneg by nra.
  rewrite Zlt_Qlt. eapply Qle_lt_trans; [apply Qfloor_le | exact Hw].
Qed.

(** C2, as amended. A line with a text, whose box is wider than 80% of
    the page width and whose text has two or more consecutive whitespace
    characters, yields exactly two record views: the stripped text before
    the first such run with the box [0 .. mid] of the left page half, and
    the stripped text after that run with the box [mid .. page_w] of the
    right page half, both keeping [y0 .. y1] and both clamped to the page
    ([mid] is half the page width, rounded down). *)
Theorem wide_line_is_split_into_page_halves
    (r : KrakenRecord) (txt : text) (x0 y0 x1 y1 page_w page_h out_idx : Z) :
  0 <= page_w ->
  r_prediction r = Some txt ->
  record_bbox r = Ok (Some (x0, y0, x1, y1)) ->
  (inject_Z page_w * 0.80 < inject_Z (x1 - x0))%Q ->
  has_wide_gap txt ->
  exists l gap rt lb rb,
    first_wide_gap txt l gap rt
    /\ clamp_bbox (0, y0, page_w / 2, y1) page_w page_h = Some lb
    /\ clamp_bbox (page_w / 2, y0, page_w, y1) page_w page_h = Some rb
    /\ views_of_record r page_w page_h out_idx
       = Ok [mkView out_idx (strip l) (Some lb); mkView (out_idx + 1) (strip rt) (Some rb)].
Proof.
  intros Hp Ht Hb Hw Hgap.
  destruct (wide_line_splitter_complete txt Hgap) as (l & rt & Hs).
  destruct (wide_line_splitter_sound txt l rt Hs) as (gap & Hfirst).
  exists l, gap, rt. do 2 eexists.
  split; [exact Hfirst|]. split; [reflexivity|]. split; [reflexivity|].
  unfold views_of_record. rewrite Ht, Hb. cbn [bind].
  rewrite (exceeds_80_percent _ _ Hp Hw), Hs.
  reflexivity.
Qed.

Lemma wide_line_is_split_into_page_halves_witness :
  exists l gap rt lb rb,
    first_wide_gap (codes "AAAA    BBBB") l gap rt
    /\ clamp_bbox (0, 10, 800 / 2, 40) 800 600 = Some lb
    /\ clamp_bbox (800 / 2, 10, 800, 40) 800 600 = Some rb
    /\ views_of_record (box_line 60 10 740 40 "AAAA    BBBB") 800 600 0
       = Ok [mkView 0 (strip l) (Some lb); mkView (0 + 1) (strip rt) (Some rb)].
Proof.
  apply (wide_line_is_split_into_page_halves
           (box_line 60 10 740 40 "AAAA    BBBB") (codes "AAAA    BBBB") 60 10 740 40 800 600 0).
  - lia.
  - reflexivity.
  - reflexivity.
  - reflexivity.
  - exists (codes "AAAA"), 32%N, 32%N, (codes "  BBBB"). repeat split.
Defined.

(** C2 as stated fails: the two boxes start at the page's left edge and
    end at its right edge, not at the line's own [x0] and [x1]. *)
Lemma split_boxes_ignore_line_edges :
  views_of_record (box_line 60 10 740 40 "AAAA    BBBB") 800 600 0
  = Ok [mkView 0 (codes "AAAA") (Some (0, 10, 400, 40));
        mkView 1 (codes "BBBB") (Some (400, 10, 800, 40))]
  /\ (0, 10, 400, 40) <> (60, 10, 400, 40)
  /\ (400, 10, 800, 40) <> (400, 10, 740, 40).
Proof. split; [reflexivity | split; discriminate]. Qed.

(** ** Visual rows *)








(** ** Lines without geometry *)

Lemma collect_items_none (records : list KrakenRecord) :
  Forall (fun r => record_bbox r = Ok None) records -> collect_items records = Ok [].
Proof.
  induction 1 as [|r rest Hr _ IH]; simpl; [reflexivity|].
  now rewrite Hr, IH.
Qed.

Lemma record_views_text_only (records : list KrakenRecord) (page_w page_h out_idx : Z) :
  Forall (fun r => record_bbox r = Ok None) records ->
  exists views,
    record_views records page_w page_h out_idx = Ok views
    /\ map rv_text views = predictions records
    /\ existsb has_bbox views = false.
Proof.
  intros H. revert out_idx.
  induction H as [|r rest Hr _ IH]; intros out_idx.
  - exists []; simpl; auto.
  - cbn [record_views]. unfold views_of_record, predictions. cbn [flat_map]. rewrite Hr.
    destruct (r_prediction r) as [txt|]; cbn [bind].
    + destruct (IH (out_idx + Z.of_nat (length [mkView out_idx txt None])))
        as (views & -> & Ht & Hb).
      exists (mkView out_idx txt None :: views). cbn [bind app map existsb].
      repeat split; [now rewrite Ht | exact Hb].
    + destruct (IH (out_idx + Z.of_nat (@length RecordView []))) as (views & -> & Ht & Hb).
      exists views; cbn [bind app]; auto.
Qed.

Lemma predictions_length (records : list KrakenRecord) :
  Forall (fun r => r_prediction r <> None) records ->
  length (predictions records) = length records.
Proof.
  induction 1 as [|r rest Hr _ IH]; [reflexivity|].
  unfold predictions in *. cbn [flat_map].
  destruct (r_prediction r); [|congruence].
  simpl. now rewrite IH.
Qed.

Lemma build_grid_text_only (views : list RecordView) (page_width : Z) :
  existsb has_bbox views = false ->
  build_grid views page_width = map (fun t => [t]) (map rv_text views).
Proof.
  intros H. unfold build_grid. rewrite H. now rewrite map_map.
Qed.

(** C7. If no line has usable geometry, the sorter returns the lines in
    input order, and the record views built from them give a grid with
    one single-cell row per line text, in that order. *)
Theorem no_geometry_keeps_order_and_text
    (records : list KrakenRecord) (page_w page_h reading_mode : Z) :
  Forall (fun r => record_bbox r = Ok None) records ->
  sort_records_reading_order records page_w reading_mode = Ok records
  /\ exists views,
       _ocr_one records page_w page_h reading_mode = Ok (records, views)
       /\ build_grid views page_w = map (fun t => [t]) (predictions records)
       /\ (Forall (fun r => r_prediction r <> None) records ->
           length (build_grid views page_w) = length records).
Proof.
  intros H.
  assert (Hs : sort_records_reading_order records page_w reading_mode = Ok records).
  { unfold sort_records_reading_order. now rewrite (collect_items_none records H). }
  split; [exact Hs|].
  destruct (record_views_text_only records page_w page_h 0 H) as (views & Hv & Ht & Hb).
  exists views. unfold _ocr_one. rewrite Hs. cbn [bind]. rewrite Hv. cbn [bind].
  split; [reflexivity|].
  rewrite (build_grid_text_only views page_w Hb), Ht.
  split; [reflexivity|].
  intros Hp. rewrite length_map. apply predictions_length, Hp.
Qed.

Lemma hello_line_alone :
  sort_records_reading_order [text_line "hello"] 1000 READING_TB_LR
  = Ok [text_line "hello"]
  /\ exists views,
       _ocr_one [text_line "hello"] 1000 1400 READING_TB_LR = Ok ([text_line "hello"], views)
       /\ build_grid views 1000 = [[codes "hello"]]
       /\ (Forall (fun r => r_prediction r <> None) [text_line "hello"] ->
           length (build_grid views 1000) = 1%nat).
Proof.
  apply (no_geometry_keeps_order_and_text [text_line "hello"] 1000 1400 READING_TB_LR).
  repeat constructor.
Defined.

(** ** Supporting facts about the normalizer *)

Lemma bbox_from_points_valid (points : list Point) (pad : Z) (bb : BBox) :
  _bbox_from_points points pad = Ok (Some bb) -> valid_box bb.
Proof.
  unfold _bbox_from_points. destruct points as [|p ps]; [discriminate|].
  destruct (int_of_float _) as [mx|]; [|discriminate].
  destruct (int_of_float _) as [my|]; [|discriminate].
  destruct (int_of_float _) as [Mx|]; [|discriminate].
  destruct (int_of_float _) as [My|]; [|discriminate].
  cbn [bind]. cbv zeta.
  destruct (Mx + pad <=? mx - pad) eqn:E1; [discriminate|].
  destruct (My + pad <=? my - pad) eqn:E2; [discriminate|].
  intros [= <-]. apply Z.leb_gt in E1, E2. split; simpl; lia.
Qed.

(** X1. Every box the normalizer returns has [x1 > x0] and [y1 > y0],
    whichever of the explicit box, the boundary, the polygon and the
    baseline it comes from. *)
Lemma record_bbox_valid (r : KrakenRecord) (bb : BBox) :
  record_bbox r = Ok (Some bb) -> valid_box bb.
Proof.
  unfold record_bbox.
  destruct (usable_explicit_box (r_bbox r)) as [eb|] eqn:Ee.
  - intros [= <-]. unfold usable_explicit_box, explicit_box in Ee.
    destruct (truthy _); [|discriminate].
    destruct (seq_items _) as [[|a [|b [|c [|d [|? ?]]]]]|]; try discriminate.
    destruct (py_int a) as [x0|]; [|discriminate].
    destruct (py_int b) as [y0|]; [|discriminate].
    destruct (py_int c) as [x1|]; [|discriminate].
    destruct (py_int d) as [y1|]; [|discriminate].
    cbn [bind] in Ee.
    destruct ((x0 <? x1) && (y0 <? y1)) eqn:E; [|discriminate].
    injection Ee as <-. apply andb_true_iff in E as [E1 E2].
    apply Z.ltb_lt in E1, E2. split; assumption.
  - destruct (outline_box (r_boundary r)) as [[b1|]|] eqn:E1; cbn [bind]; [| |discriminate].
    { intros [= <-]. unfold outline_box in E1.
      destruct (truthy _); [|discriminate]. eapply bbox_from_points_valid, E1. }
    destruct (outline_box (r_polygon r)) as [[b2|]|] eqn:E2; cbn [bind]; [| |discriminate].
    { intros [= <-]. unfold outline_box in E2.
      destruct (truthy _); [|discriminate]. eapply bbox_from_points_valid, E2. }
    unfold baseline_box. destruct (truthy _); [|discriminate].
    destruct (_bbox_from_points _ 2) as [[[[[x0 y0] x1] y1]|]|] eqn:E3; cbn [bind];
      try discriminate.
    intros [= <-]. apply bbox_from_points_valid in E3. destruct E3 as [Hx Hy].
    simpl in *. split; simpl; lia.
Qed.

Lemma finite_points_are_rational (points : list Point) :
  forallb finite_point points = true -> exists qs, points = map fin_point qs.
Proof.
  induction points as [|[x y] t IH]; simpl; intros H.
  - now exists [].
  - apply andb_true_iff in H as [Hp Ht]. destruct (IH Ht) as (qs & ->).
    destruct x as [qx| |]; try discriminate; destruct y as [qy| |]; try discriminate.
    now exists ((qx, qy) :: qs).
Qed.

Lemma bbox_from_finite_points_ok (points : list Point) :
  forallb finite_point points = true -> _bbox_from_points points 2 <> Raise.
Proof.
  intros H. destruct (finite_points_are_rational points H) as ([|p ps] & ->).
  - discriminate.
  - rewrite bbox_from_finite_points by lia. discriminate.
Qed.

(** X2. With finite coordinates in the points of its boundary, polygon
    and baseline, a line never makes the normalizer raise, whatever its
    explicit box holds. *)
Lemma record_bbox_total_on_finite_points (r : KrakenRecord) :
  forallb finite_point (_coerce_points (r_boundary r)) = true ->
  forallb finite_point (_coerce_points (r_polygon r)) = true ->
  forallb finite_point (_coerce_points (r_baseline r)) = true ->
  record_bbox r <> Raise.
Proof.
  intros H1 H2 H3. unfold record_bbox.
  destruct (usable_explicit_box _); [discriminate|].
  pose proof (bbox_from_finite_points_ok _ H1) as N1.
  pose proof (bbox_from_finite_points_ok _ H2) as N2.
  pose proof (bbox_from_finite_points_ok _ H3) as N3.
  unfold outline_box, baseline_box.
  destruct (truthy (r_boundary r));
    [destruct (_bbox_from_points (_coerce_points (r_boundary r)) 2) as [[?|]|];
     [discriminate | | congruence] |]; cbn [bind];
  (destruct (truthy (r_polygon r));
    [destruct (_bbox_from_points (_coerce_points (r_polygon r)) 2) as [[?|]|];
     [discriminate | | congruence] |]; cbn [bind];
   (destruct (truthy (r_baseline r)); [|discriminate];
    destruct (_bbox_from_points (_coerce_points (r_baseline r)) 2) as [[[[[? ?] ?] ?]|]|];
    cbn [bind]; [discriminate | discriminate | congruence])).
Qed.

(** ** Supporting facts about the sorter *)

(** With fewer than 6 body candidates the sorter returns the sort on
    [(y0, x0)] with the sign flips of the mode. *)
Lemma few_candidates_use_mode_sort (items : list Item) (image_width reading_mode : Z) :
  (length (body_candidates image_width items) < 6)%nat ->
  order_items items image_width reading_mode = Ok (mode_sort reading_mode items).
Proof.
  intros H. unfold order_items.
  apply Nat.ltb_lt in H. now rewrite H.
Qed.

(** The keys of that sort in the four reading modes. *)
Lemma mode_sort_keys (items : list Item) :
  mode_sort READING_TB_LR items
  = map fst (sorted_by ZZ_leb (fun x : Item => (bb1 (snd x), bb0 (snd x))) items)
  /\ mode_sort READING_TB_RL items
     = map fst (sorted_by ZZ_leb (fun x : Item => (bb1 (snd x), - bb0 (snd x))) items)
  /\ mode_sort READING_BT_LR items
     = map fst (sorted_by ZZ_leb (fun x : Item => (- bb1 (snd x), bb0 (snd x))) items)
  /\ mode_sort READING_BT_RL items
     = map fst (sorted_by ZZ_leb (fun x : Item => (- bb1 (snd x), - bb0 (snd x))) items).
Proof. repeat split. Qed.



(** The two-column scenario: the three left lines come before the three
    right lines when the page is read top to bottom, left to right. *)
Lemma two_column_page_order :
  sort_records_reading_order two_column_page 1000 READING_TB_LR
  = Ok [box_line 20 100 80 130 "l1"; box_line 30 140 90 170 "l2"; box_line 40 180 100 210 "l3";
        box_line 880 100 940 130 "r1"; box_line 890 140 950 170 "r2";
        box_line 870 180 930 210 "r3"].
Proof. vm_compute. reflexivity. Qed.

(** ** Supporting facts about the rows *)

Lemma place_in_rows_keeps_first (w : Z) (r : RecordView)
    (rows rows' : list (list RecordView)) :
  Forall (fun row => exists rep rest,
            row = rep :: rest /\ Forall (fun x => is_same_visual_row rep x w = true) rest) rows ->
  place_in_rows w r rows = Some rows' ->
  Forall (fun row => exists rep rest,
            row = rep :: rest /\ Forall (fun x => is_same_visual_row rep x w = true) rest) rows'.
Proof.
  intros H. revert rows'. induction H as [|row rows Hrow Hrows IH]; intros rows'; simpl.
  - discriminate.
  - destruct Hrow as (rep & rest & -> & Hrest).
    destruct (is_same_visual_row rep r w) eqn:E.
    + intros [= <-]. constructor; [|assumption].
      exists rep, (rest ++ [r]). split; [reflexivity|].
      apply Forall_app. split; [assumption | now repeat constructor].
    + destruct (place_in_rows w r rows) as [rest'|]; [|discriminate].
      intros [= <-]. constructor; [|now apply IH].
      exists rep, rest. auto.
Qed.

Lemma rows_keep_first (w : Z) (recs : list RecordView) (rows : list (list RecordView)) :
  Forall (fun row => exists rep rest,
            row = rep :: rest /\ Forall (fun x => is_same_visual_row rep x w = true) rest) rows ->
  Forall (fun row => exists rep rest,
            row = rep :: rest /\ Forall (fun x => is_same_visual_row rep x w = true) rest)
         (fold_left (row_step w) recs rows).
Proof.
  revert rows; induction recs as [|r t IH]; intros rows H; simpl; [assumption|].
  apply IH. unfold row_step.
  destruct (place_in_rows w r rows) as [rows'|] eqn:E.
  - eapply place_in_rows_keeps_first; eauto.
  - apply Forall_app. split; [assumption|].
    constructor; [|constructor]. exists r, []. split; [reflexivity | constructor].
Qed.

(** X13. Every row of the grouping has a line, the first placed in it,
    with which each other line of the row is visually compatible. *)
Lemma rows_follow_first_placed_line (records : list RecordView) (page_width : Z) :
  Forall (fun row => exists rep rest,
            Permutation row (rep :: rest)
            /\ Forall (fun x => is_same_visual_row rep x page_width = true) rest)
         (group_rows_by_y records page_width).
Proof.
  unfold group_rows_by_y. apply Forall_map.
  eapply Forall_impl; [|apply rows_keep_first; constructor].
  intros row (rep & rest & -> & H). exists rep, rest. split; [|assumption].
  apply sorted_by_perm.
Qed.

(** ** The code at the inputs where it departs from the specification *)

(** C3. Six lines of one column, read bottom to top: all six are body
    candidates, so the clustering runs; its two centres coincide, and the
    sorter returns the sort without sign flips, the lines top to bottom,
    where the sort with the sign flips of the mode returns them bottom to
    top. *)
Lemma close_centres_fallback_ignores_mode :
  sort_records_reading_order one_column_page 1000 READING_BT_LR = Ok one_column_page
  /\ exists items,
       collect_items one_column_page = Ok items
       /\ length (body_candidates 1000 items) = 6%nat
       /\ order_items items 1000 READING_BT_LR = Ok (plain_sort items)
       /\ plain_sort items = one_column_page
       /\ mode_sort READING_BT_LR items = rev one_column_page.
Proof.
  split; [vm_compute; reflexivity|].
  eexists. split; [vm_compute; reflexivity|].
  repeat split; vm_compute; reflexivity.
Qed.

(** C4. A wide line whose box lies above the page: the normalizer
    accepts its box, and both halves of the split carry a box with
    [y1 = y0]. *)
Lemma split_attaches_flat_boxes :
  record_bbox (box_line 0 (-30) 900 (-5) "A  B") = Ok (Some (0, -30, 900, -5))
  /\ _ocr_one [box_line 0 (-30) 900 (-5) "A  B"] 1000 1000 READING_TB_LR
     = Ok ([box_line 0 (-30) 900 (-5) "A  B"],
           [mkView 0 (codes "A") (Some (0, 0, 500, 0));
            mkView 1 (codes "B") (Some (500, 0, 1000, 0))])
  /\ ~ valid_box (0, 0, 500, 0)
  /\ ~ valid_box (500, 0, 1000, 0).
Proof.
  split; [reflexivity|]. split; [reflexivity|].
  split; intros [_ H]; simpl in H; lia.
Qed.

(** C8. A boundary polygon with a NaN coordinate: the points are kept by
    the coercion and the box computation raises. *)
Lemma nan_coordinate_raises :
  _coerce_points (r_boundary nan_boundary_line)
  = [(FNan, FFin 0); (FFin 10, FFin 5)]
  /\ record_bbox nan_boundary_line = Raise
  /\ sort_records_reading_order [nan_boundary_line] 1000 READING_TB_LR = Raise.
Proof. repeat split. Qed.

(* ================================================================== *)
(** * Further properties of the code *)

(** ** The normalizer *)

Lemma record_bbox_valid_witness : valid_box (10, 10, 200, 40).
Proof.
  apply (record_bbox_valid (box_line 10 10 200 40 "a")). reflexivity.
Defined.

Lemma record_bbox_total_on_finite_points_witness :
  record_bbox (baseline_line [(10, 100); (200, 104)]%Q) <> Raise.
Proof.
  apply record_bbox_total_on_finite_points; reflexivity.
Defined.

Lemma mapM_ok_forall2 {A B : Type} (f : A -> exc B) (l : list A) (out : list B) :
  mapM f l = Ok out -> Forall2 (fun a b => f a = Ok b) l out.
Proof.
  revert out; induction l as [|a t IH]; intros out; simpl.
  - intros [= <-]. constructor.
  - destruct (f a) as [b|] eqn:E; [|discriminate]. cbn [bind].
    destruct (mapM f t) as [bs|]; [|discriminate]. cbn [bind].
    intros [= <-]. constructor; [exact E | now apply IH].
Qed.

Lemma mapM_raise_exists {A B : Type} (f : A -> exc B) (l : list A) :
  mapM f l = Raise -> exists a, In a l /\ f a = Raise.
Proof.
  induction l as [|a t IH]; simpl; [discriminate|].
  destruct (f a) as [b|] eqn:E; cbn [bind].
  - destruct (mapM f t) as [bs|]; [discriminate|].
    intros _. destruct (IH eq_refl) as (x & Hx & Hr). exists x; auto.
  - intros _. exists a; auto.
Qed.

(** X3. A list or tuple whose first item is a pair that starts with a
    number is coerced all or nothing: either every item is a pair of
    numbers and the result has one point per item, in order, or some item
    is not and the result is empty. *)
Theorem coerce_points_all_or_nothing (v first : pyval) (rest : list pyval) :
  seq_items v = Some (first :: rest) ->
  flat_pair_head first = true ->
  Forall2 (fun item p => pair_to_point item = Ok p) (first :: rest) (_coerce_points v)
  \/ (_coerce_points v = [] /\ exists item, In item (first :: rest) /\ pair_to_point item = Raise).
Proof.
  intros Hs Hh.
  assert (E : _coerce_points v
              = match mapM pair_to_point (first :: rest) with Ok pts => pts | Raise => [] end).
  { destruct v; try discriminate Hs; simpl in Hs; injection Hs as ->;
      cbn [_coerce_points]; now rewrite Hh. }
  rewrite E. destruct (mapM pair_to_point (first :: rest)) as [pts|] eqn:M.
  - left. now apply mapM_ok_forall2.
  - right. split; [reflexivity | now apply mapM_raise_exists].
Qed.

Lemma coerce_points_all_or_nothing_witness :
  Forall2 (fun item p => pair_to_point item = Ok p)
    [PTuple [PInt 1; PInt 2]; PNone]
    (_coerce_points (PList [PTuple [PInt 1; PInt 2]; PNone]))
  \/ (_coerce_points (PList [PTuple [PInt 1; PInt 2]; PNone]) = []
      /\ exists item, In item [PTuple [PInt 1; PInt 2]; PNone] /\ pair_to_point item = Raise).
Proof.
  apply (coerce_points_all_or_nothing (PList [PTuple [PInt 1; PInt 2]; PNone])); reflexivity.
Defined.

(** ** Clamping *)

(** X4. On a page of at least one pixel each way, [clamp_bbox] returns a
    box whose left and top edges lie in [0 .. w-1] and [0 .. h-1] and
    whose right and bottom edges lie in [0 .. w] and [0 .. h]; a box that
    is not degenerate and lies within the page is returned unchanged. *)
Theorem clamp_bbox_within_page (bb : BBox) (w h : Z) :
  1 <= w -> 1 <= h ->
  exists c,
    clamp_bbox bb w h = Some c
    /\ 0 <= bb0 c <= w - 1 /\ 0 <= bb1 c <= h - 1
    /\ 0 <= bb2 c <= w /\ 0 <= bb3 c <= h
    /\ (valid_box bb -> 0 <= bb0 bb -> 0 <= bb1 bb -> bb2 bb <= w -> bb3 bb <= h -> c = bb).
Proof.
  intros Hw Hh. destruct bb as [[[x0 y0] x1] y1].
  eexists. split; [reflexivity|]. cbn [bb0 bb1 bb2 bb3].
  repeat split; try lia.
  intros [Hx Hy] H0 H1 H2 H3. cbn [bb0 bb1 bb2 bb3] in *.
  repeat match goal with |- (_, _) = (_, _) => f_equal end; lia.
Qed.

Lemma clamp_bbox_within_page_witness :
  exists c,
    clamp_bbox (-5, 10, 900, 700) 800 600 = Some c
    /\ 0 <= bb0 c <= 800 - 1 /\ 0 <= bb1 c <= 600 - 1
    /\ 0 <= bb2 c <= 800 /\ 0 <= bb3 c <= 600
    /\ (valid_box (-5, 10, 900, 700) -> 0 <= bb0 (-5, 10, 900, 700)
        -> 0 <= bb1 (-5, 10, 900, 700) -> bb2 (-5, 10, 900, 700) <= 800
        -> bb3 (-5, 10, 900, 700) <= 600 -> c = (-5, 10, 900, 700)).
Proof. apply clamp_bbox_within_page; lia. Defined.

Lemma clamp_drawn_valid (img_w img_h x0 y0 x1 y1 : Z) :
  1 <= img_w -> 1 <= img_h ->
  valid_box (clamp_drawn img_w img_h x0 y0 x1 y1)
  /\ 0 <= bb0 (clamp_drawn img_w img_h x0 y0 x1 y1)
  /\ 0 <= bb1 (clamp_drawn img_w img_h x0 y0 x1 y1)
  /\ bb2 (clamp_drawn img_w img_h x0 y0 x1 y1) <= img_w
  /\ bb3 (clamp_drawn img_w img_h x0 y0 x1 y1) <= img_h.
Proof.
  intros Hw Hh. unfold clamp_drawn, valid_box. cbv zeta. cbn [bb0 bb1 bb2 bb3].
  destruct (Z.max 1 (Z.min img_w x1) <=? Z.max 0 (Z.min (img_w - 1) x0)) eqn:Ex;
    destruct (Z.max 1 (Z.min img_h y1) <=? Z.max 0 (Z.min (img_h - 1) y0)) eqn:Ey;
    rewrite ?Z.leb_le, ?Z.leb_gt in *; repeat split; lia.
Qed.

(** X5. The box the box-edit dialog returns is never degenerate and lies
    within the image, taken as at least one pixel each way, whatever the
    four spin boxes hold. *)
Theorem get_bbox_valid (img_w img_h sp_x0 sp_y0 sp_x1 sp_y1 : Z) :
  valid_box (get_bbox img_w img_h sp_x0 sp_y0 sp_x1 sp_y1)
  /\ 0 <= bb0 (get_bbox img_w img_h sp_x0 sp_y0 sp_x1 sp_y1)
  /\ 0 <= bb1 (get_bbox img_w img_h sp_x0 sp_y0 sp_x1 sp_y1)
  /\ bb2 (get_bbox img_w img_h sp_x0 sp_y0 sp_x1 sp_y1) <= Z.max 1 img_w
  /\ bb3 (get_bbox img_w img_h sp_x0 sp_y0 sp_x1 sp_y1) <= Z.max 1 img_h.
Proof.
  unfold get_bbox, valid_box. cbv zeta. cbn [bb0 bb1 bb2 bb3].
  destruct (Z.max sp_x0 sp_x1 <=? Z.min sp_x0 sp_x1) eqn:Ex;
    destruct (Z.max sp_y0 sp_y1 <=? Z.min sp_y0 sp_y1) eqn:Ey;
    rewrite ?Z.leb_le, ?Z.leb_gt in *; repeat split; lia.
Qed.

(** X6. On a page image of at least one pixel each way, the box taken
    from a rectangle drawn on the canvas, and the box taken from an
    overlay rectangle that was moved or resized, are never degenerate and
    lie within the image, whatever the edges of the rectangle are. *)
Theorem canvas_boxes_valid (img_w img_h : Z) (left top right bottom : pyval) :
  1 <= img_w -> 1 <= img_h ->
  (valid_box (drawn_box img_w img_h left top right bottom)
   /\ 0 <= bb0 (drawn_box img_w img_h left top right bottom)
   /\ 0 <= bb1 (drawn_box img_w img_h left top right bottom)
   /\ bb2 (drawn_box img_w img_h left top right bottom) <= img_w
   /\ bb3 (drawn_box img_w img_h left top right bottom) <= img_h)
  /\ (valid_box (overlay_box img_w img_h left top right bottom)
      /\ 0 <= bb0 (overlay_box img_w img_h left top right bottom)
      /\ 0 <= bb1 (overlay_box img_w img_h left top right bottom)
      /\ bb2 (overlay_box img_w img_h left top right bottom) <= img_w
      /\ bb3 (overlay_box img_w img_h left top right bottom) <= img_h).
Proof.
  intros Hw Hh. split; apply clamp_drawn_valid; assumption.
Qed.

Lemma canvas_boxes_valid_witness :
  (valid_box (drawn_box 800 600 (PFloat (FFin 900)) (PFloat FNan) (PFloat (FFin 900)) (PInt 5))
   /\ 0 <= bb0 (drawn_box 800 600 (PFloat (FFin 900)) (PFloat FNan) (PFloat (FFin 900)) (PInt 5))
   /\ 0 <= bb1 (drawn_box 800 600 (PFloat (FFin 900)) (PFloat FNan) (PFloat (FFin 900)) (PInt 5))
   /\ bb2 (drawn_box 800 600 (PFloat (FFin 900)) (PFloat FNan) (PFloat (FFin 900)) (PInt 5))
      <= 800
   /\ bb3 (drawn_box 800 600 (PFloat (FFin 900)) (PFloat FNan) (PFloat (FFin 900)) (PInt 5))
      <= 600)
  /\ (valid_box
        (overlay_box 800 600 (PFloat (FFin 900)) (PFloat FNan) (PFloat (FFin 900)) (PInt 5))
      /\ 0 <= bb0 (overlay_box 800 600 (PFloat (FFin 900)) (PFloat FNan) (PFloat (FFin 900))
                     (PInt 5))
      /\ 0 <= bb1 (overlay_box 800 600 (PFloat (FFin 900)) (PFloat FNan) (PFloat (FFin 900))
                     (PInt 5))
      /\ bb2 (overlay_box 800 600 (PFloat (FFin 900)) (PFloat FNan) (PFloat (FFin 900))
                (PInt 5)) <= 800
      /\ bb3 (overlay_box 800 600 (PFloat (FFin 900)) (PFloat FNan) (PFloat (FFin 900))
                (PInt 5)) <= 600).
Proof. apply canvas_boxes_valid; lia. Defined.

(** ** Progress *)

(** X7. For a file index within the batch the progress emitted lies in
    [0 .. 100], whatever fraction of the file is reported; for a batch
    with no file it is 0. *)
Theorem progress_within_0_100 (file_idx total_files : Z) (frac_in_file : Q) :
  (total_files <= 0 -> _emit_overall_progress file_idx total_files frac_in_file = 0)
  /\ (0 <= file_idx < total_files ->
      0 <= _emit_overall_progress file_idx total_files frac_in_file <= 100).
Proof.
  unfold _emit_overall_progress. split.
  - intros H. apply Z.leb_le in H. now rewrite H.
  - intros [H0 H1].
    replace (total_files <=? 0) with false by (symmetry; apply Z.leb_gt; lia).
    set (capped := if Qltb frac_in_file 1 then frac_in_file else 1%Q).
    set (frac := if Qltb 0 capped then capped else 0%Q).
    assert (Hc : (capped <= 1)%Q).
    { unfold capped. destruct (Qltb frac_in_file 1) eqn:E; [|apply Qle_refl].
      apply Qltb_lt in E. now apply Qlt_le_weak. }
    assert (Hf : (0 <= frac <= 1)%Q).
    { unfold frac. destruct (Qltb 0 capped) eqn:E.
      - apply Qltb_lt in E. split; [now apply Qlt_le_weak | exact Hc].
      - split; [apply Qle_refl | discriminate]. }
    assert (Hi : (0 <= inject_Z file_idx)%Q) by (rewrite <- (Zle_Qle 0); exact H0).
    assert (Hn : (0 < inject_Z total_files)%Q) by (rewrite <- (Zlt_Qlt 0); lia).
    assert (Hle : (inject_Z file_idx + 1 <= inject_Z total_files)%Q).
    { change 1%Q with (inject_Z 1). rewrite <- inject_Z_plus. rewrite <- Zle_Qle. lia. }
    set (overall := ((inject_Z file_idx + frac) / inject_Z total_files)%Q).
    assert (Ho : (0 <= overall <= 1)%Q).
    { unfold overall. split.
      - apply Qle_shift_div_l; [exact Hn | lra].
      - apply Qle_shift_div_r; [exact Hn | lra]. }
    rewrite Qtrunc_nonneg by lra.
    assert (L : Qfloor 0 <= Qfloor (overall * 100)) by (apply Qfloor_resp_le; lra).
    assert (U : Qfloor (overall * 100) <= Qfloor 100) by (apply Qfloor_resp_le; lra).
    split; [exact L | exact U].
Qed.

Lemma progress_within_0_100_witness :
  (3 <= 0 -> _emit_overall_progress 2 3 (7 # 4) = 0)
  /\ (0 <= 2 < 3 -> 0 <= _emit_overall_progress 2 3 (7 # 4) <= 100).
Proof. apply progress_within_0_100. Defined.

(** ** The sorter and the record views *)

(** X8. With fewer than 6 body candidates the sorter returns the lines
    that have a box, each once, in ascending order of the key
    [(y0, x0)] with [y0] negated for a bottom-to-top mode and [x0]
    negated for a right-to-left mode. *)
Theorem few_candidates_sorted_by_mode_key (items : list Item) (image_width reading_mode : Z) :
  (length (body_candidates image_width items) < 6)%nat ->
  exists sorted_items,
    order_items items image_width reading_mode = Ok (map fst sorted_items)
    /\ Permutation sorted_items items
    /\ Sorted (fun a b => ZZ_leb (mode_key reading_mode a) (mode_key reading_mode b) = true)
         sorted_items.
Proof.
  intros H. exists (sorted_by ZZ_leb (mode_key reading_mode) items).
  split; [now rewrite few_candidates_use_mode_sort|].
  split; [apply sorted_by_perm | apply sorted_by_sorted, ZZ_leb_total].
Qed.

Lemma few_candidates_sorted_by_mode_key_witness :
  exists sorted_items,
    order_items [(box_line 10 50 200 80 "b", (10, 50, 200, 80));
                 (box_line 10 10 200 40 "a", (10, 10, 200, 40))] 1000 READING_BT_RL
    = Ok (map fst sorted_items)
    /\ Permutation sorted_items
         [(box_line 10 50 200 80 "b", (10, 50, 200, 80));
          (box_line 10 10 200 40 "a", (10, 10, 200, 40))]
    /\ Sorted (fun a b => ZZ_leb (mode_key READING_BT_RL a) (mode_key READING_BT_RL b) = true)
         sorted_items.
Proof.
  apply few_candidates_sorted_by_mode_key. vm_compute. lia.
Defined.


Lemma first_wide_gap_has_gap (txt l gap rt : text) :
  first_wide_gap txt l gap rt -> has_wide_gap txt.
Proof.
  intros (Ht & Hlen & Hall & _).
  destruct gap as [|g1 [|g2 gs]]; simpl in Hlen; try lia.
  simpl in Hall. apply andb_true_iff in Hall as [H1 Hall].
  apply andb_true_iff in Hall as [H2 _].
  exists l, g1, g2, (gs ++ rt). split; [|auto].
  rewrite Ht. reflexivity.
Qed.

(** X10. A line with a text passes into the record views as it is, with
    its text and its box, when it has no box, when its box is not wider
    than 80% of the page width, or when its text has no run of two
    whitespace characters. *)
Theorem unsplit_line_is_kept
    (r : KrakenRecord) (txt : text) (bb : option BBox) (page_w page_h out_idx : Z) :
  r_prediction r = Some txt ->
  record_bbox r = Ok bb ->
  bb = None
  \/ (exists b, bb = Some b /\ bb_w b <= Qtrunc (inject_Z page_w * 0.80))
  \/ ~ has_wide_gap txt ->
  views_of_record r page_w page_h out_idx = Ok [mkView out_idx txt bb].
Proof.
  intros Ht Hb Hcase. unfold views_of_record. rewrite Ht, Hb. cbn [bind].
  destruct bb as [[[[x0 y0] x1] y1]|]; [|reflexivity].
  destruct Hcase as [Hn | [(b & [= <-] & Hw) | Hg]]; [discriminate | |].
  - unfold bb_w in Hw. cbn [bb0 bb2] in Hw.
    replace (_ <? _) with false by (symmetry; apply Z.ltb_ge; exact Hw).
    reflexivity.
  - destruct (_ <? _); [|reflexivity].
    destruct (wide_line_splitter txt) as [[l rt]|] eqn:E; [|reflexivity].
    exfalso. apply Hg.
    destruct (wide_line_splitter_sound txt l rt E) as (gap & Hgap).
    eapply first_wide_gap_has_gap, Hgap.
Qed.

Lemma unsplit_line_is_kept_witness :
  views_of_record (box_line 60 10 500 40 "AAAA    BBBB") 800 600 7
  = Ok [mkView 7 (codes "AAAA    BBBB") (Some (60, 10, 500, 40))].
Proof.
  apply (unsplit_line_is_kept (box_line 60 10 500 40 "AAAA    BBBB")
           (codes "AAAA    BBBB") (Some (60, 10, 500, 40)) 800 600 7).
  - reflexivity.
  - reflexivity.
  - right; left. exists (60, 10, 500, 40). split; [reflexivity|]. vm_compute. discriminate.
Defined.

Lemma renumber_from_app (i : Z) (a b : list RecordView) :
  renumber_from i (a ++ b)
  = renumber_from i a ++ renumber_from (i + Z.of_nat (length a)) b.
Proof.
  revert i; induction a as [|x t IH]; intros i.
  - simpl. now rewrite Z.add_0_r.
  - cbn [app renumber_from length]. rewrite IH. do 3 f_equal. lia.
Qed.

Lemma views_of_record_numbered (r : KrakenRecord) (page_w page_h out_idx : Z)
    (vs : list RecordView) :
  views_of_record r page_w page_h out_idx = Ok vs ->
  renumber_from out_idx vs = vs /\ (length vs <= 2)%nat.
Proof.
  unfold views_of_record.
  destruct (r_prediction r) as [txt|]; [|intros [= <-]; simpl; auto].
  destruct (record_bbox r) as [bb|]; cbn [bind]; [|discriminate].
  destruct bb as [[[[x0 y0] x1] y1]|]; [|intros [= <-]; simpl; auto].
  destruct (_ <? _); [|intros [= <-]; simpl; auto].
  destruct (wide_line_splitter txt) as [[l rt]|]; [|intros [= <-]; simpl; auto].
  cbn [clamp_bbox length app]. intros [= <-]. simpl. auto.
Qed.

(** X11. The record views built from a page are numbered by position:
    the view at position [k] has index [out_idx + k], split lines
    included; and a page gives at most two views per record. *)
Theorem record_views_numbered
    (kr_sorted : list KrakenRecord) (page_w page_h out_idx : Z) (views : list RecordView) :
  record_views kr_sorted page_w page_h out_idx = Ok views ->
  renumber_from out_idx views = views
  /\ (length views <= 2 * length kr_sorted)%nat.
Proof.
  revert out_idx views; induction kr_sorted as [|r rest IH]; intros out_idx views.
  - intros [= <-]. simpl. auto.
  - cbn [record_views].
    destruct (views_of_record r page_w page_h out_idx) as [vs|] eqn:E1; [|discriminate].
    cbn [bind].
    destruct (record_views rest page_w page_h (out_idx + Z.of_nat (length vs)))
      as [more|] eqn:E2; [|discriminate].
    cbn [bind]. intros [= <-].
    destruct (views_of_record_numbered _ _ _ _ _ E1) as [N1 L1].
    destruct (IH _ _ E2) as [N2 L2].
    split.
    + now rewrite renumber_from_app, N1, N2.
    + rewrite length_app. simpl length. lia.
Qed.

Lemma record_views_numbered_witness :
  renumber_from 0 split_page_views = split_page_views
  /\ (length split_page_views <= 2 * length split_page)%nat.
Proof.
  apply (record_views_numbered split_page 800 600 0). reflexivity.
Defined.

(** ** The table grid *)

Lemma concat_perm {A : Type} (l l' : list (list A)) :
  Permutation l l' -> Permutation (concat l) (concat l').
Proof.
  induction 1; simpl.
  - constructor.
  - now apply Permutation_app_head.
  - rewrite !app_assoc. apply Permutation_app_tail, Permutation_app_comm.
  - eapply perm_trans; eauto.
Qed.

Lemma concat_map_perm {A : Type} (f : list A -> list A) (l : list (list A)) :
  (forall x, Permutation (f x) x) -> Permutation (concat (map f l)) (concat l).
Proof.
  intros Hf. induction l as [|x t IH]; simpl; [constructor|].
  now apply Permutation_app.
Qed.

Lemma place_in_rows_perm (w : Z) (r : RecordView) (rows rows' : list (list RecordView)) :
  place_in_rows w r rows = Some rows' ->
  Permutation (concat rows') (r :: concat rows).
Proof.
  revert rows'; induction rows as [|row rest IH]; intros rows'; simpl; [discriminate|].
  destruct (match row with [] => false | rep :: _ => is_same_visual_row rep r w end).
  - intros [= <-]. simpl. rewrite <- app_assoc. simpl.
    apply Permutation_sym, Permutation_middle.
  - destruct (place_in_rows w r rest) as [rest'|]; [|discriminate].
    intros [= <-]. simpl.
    eapply perm_trans; [apply Permutation_app_head, IH; reflexivity|].
    apply Permutation_sym, Permutation_middle.
Qed.

Lemma rows_fold_perm (w : Z) (recs : list RecordView) (rows : list (list RecordView)) :
  Permutation (concat (fold_left (row_step w) recs rows)) (concat rows ++ recs).
Proof.
  revert rows; induction recs as [|r t IH]; intros rows; simpl.
  - now rewrite app_nil_r.
  - eapply perm_trans; [apply IH|].
    unfold row_step. destruct (place_in_rows w r rows) as [rows'|] eqn:E.
    + eapply perm_trans; [apply Permutation_app_tail, (place_in_rows_perm _ _ _ _ E)|].
      simpl. apply Permutation_middle.
    + rewrite concat_app. simpl. rewrite <- app_assoc. reflexivity.
Qed.

Lemma Zleb_total (a b : Z) : (a <=? b) = false -> (b <=? a) = true.
Proof. intros H. apply Z.leb_gt in H. apply Z.leb_le. lia. Qed.

Lemma group_rows_perm (records : list RecordView) (page_width : Z) :
  Permutation (concat (group_rows_by_y records page_width)) (filter has_bbox records).
Proof.
  unfold group_rows_by_y.
  eapply perm_trans; [apply concat_map_perm; intros x; apply sorted_by_perm|].
  eapply perm_trans; [apply rows_fold_perm|]. simpl. apply sorted_by_perm.
Qed.

(** X12. The visual rows partition the lines that have a box: every such
    line is in exactly one row. No row is empty, and within a row the
    lines stand in ascending order of their left edge. *)
Theorem rows_partition_boxed_lines (records : list RecordView) (page_width : Z) :
  Permutation (concat (group_rows_by_y records page_width)) (filter has_bbox records)
  /\ Forall (fun row => row <> []
                        /\ Sorted (fun a b => (view_x0 a <=? view_x0 b) = true) row)
            (group_rows_by_y records page_width).
Proof.
  split; [apply group_rows_perm|]. unfold group_rows_by_y.
  - apply Forall_map.
    eapply Forall_impl; [|apply (rows_keep_first page_width); constructor].
    intros row (rep & rest & -> & _). split.
    + intros E. apply (f_equal (@length RecordView)) in E.
      rewrite sorted_by_length in E. discriminate E.
    + apply sorted_by_sorted. exact Zleb_total.
Qed.

Lemma place_in_cols_perm (th x0 : Z) (r : RecordView) (cols cols' : list Col) :
  place_in_cols th x0 r cols = Some cols' ->
  Permutation (concat (map snd cols')) (r :: concat (map snd cols))
  /\ (Forall (fun c : Col => snd c <> []) cols -> Forall (fun c : Col => snd c <> []) cols').
Proof.
  revert cols'; induction cols as [|c rest IH]; intros cols'; simpl; [discriminate|].
  destruct (Z.abs (fst c - x0) <=? th).
  - intros [= <-]. simpl. split.
    + rewrite <- app_assoc. simpl. apply Permutation_sym, Permutation_middle.
    + intros H. inversion H; subst. constructor; [|assumption].
      simpl. intros E. now apply app_eq_nil in E as [_ E].
  - destruct (place_in_cols th x0 r rest) as [rest'|]; [|discriminate].
    intros [= <-]. destruct (IH rest' eq_refl) as [P N]. simpl. split.
    + eapply perm_trans; [apply Permutation_app_head, P|].
      apply Permutation_sym, Permutation_middle.
    + intros H. inversion H; subst. constructor; auto.
Qed.

Lemma cols_fold_perm (th : Z) (recs : list RecordView) (cols : list Col) :
  Forall (fun c : Col => snd c <> []) cols ->
  Permutation (concat (map snd (fold_left (cluster_step th) recs cols)))
              (concat (map snd cols) ++ filter has_bbox recs)
  /\ Forall (fun c : Col => snd c <> []) (fold_left (cluster_step th) recs cols).
Proof.
  revert cols; induction recs as [|r t IH]; intros cols Hne; simpl.
  - now rewrite app_nil_r.
  - unfold cluster_step at 2 4. destruct (has_bbox r) eqn:Hb; [|now apply IH].
    destruct (place_in_cols th (view_x0 r) r cols) as [cols'|] eqn:E.
    + destruct (place_in_cols_perm _ _ _ _ _ E) as [P N].
      destruct (IH cols' (N Hne)) as [P' N']. split; [|exact N'].
      eapply perm_trans; [exact P'|].
      eapply perm_trans; [apply Permutation_app_tail, P|].
      simpl. apply Permutation_middle.
    + assert (Hne' : Forall (fun c : Col => snd c <> []) (cols ++ [(view_x0 r, [r])])).
      { apply Forall_app. split; [assumption|]. repeat constructor. discriminate. }
      destruct (IH _ Hne') as [P' N']. split; [|exact N'].
      eapply perm_trans; [exact P'|].
      rewrite map_app, concat_app. simpl. rewrite <- app_assoc. reflexivity.
Qed.

Lemma cluster_columns_perm (records : list RecordView) (x_threshold : Z) :
  Permutation (concat (cluster_columns records x_threshold)) (filter has_bbox records).
Proof.
  unfold cluster_columns.
  destruct (cols_fold_perm x_threshold records [] (Forall_nil _)) as [P _].
  eapply perm_trans; [apply concat_perm, Permutation_map, sorted_by_perm | exact P].
Qed.

(** X14. The columns partition the lines that have a box: every such
    line is in exactly one column, and no column is empty. *)
Theorem columns_partition_boxed_lines (records : list RecordView) (x_threshold : Z) :
  Permutation (concat (cluster_columns records x_threshold)) (filter has_bbox records)
  /\ Forall (fun col => col <> []) (cluster_columns records x_threshold).
Proof.
  split; [apply cluster_columns_perm|]. unfold cluster_columns.
  destruct (cols_fold_perm x_threshold records [] (Forall_nil _)) as [_ N].
  - apply Forall_map.
    apply Forall_forall. intros c Hc.
    apply (proj1 (sorted_by_in Z.leb (fun c : Col => fst c) _ c)) in Hc.
    exact (proj1 (Forall_forall _ _) N c Hc).
Qed.

Lemma put_cell_length (line : list text) (c : nat) (t : text) :
  length (put_cell line c t) = length line.
Proof.
  revert c; induction line as [|cell rest IH]; intros c; [reflexivity|].
  destruct c; simpl; [reflexivity | now rewrite IH].
Qed.

Lemma grid_line_length (col_x : list Z) (row : list RecordView) :
  length (grid_line col_x row) = Nat.max 1 (length col_x).
Proof.
  unfold grid_line.
  assert (G : forall line, length (fold_left
              (fun line rv => if has_bbox rv
                              then put_cell line (nearest_col col_x (view_x0 rv)) (rv_text rv)
                              else line) row line) = length line).
  { induction row as [|rv t IH]; intros line; simpl; [reflexivity|].
    rewrite IH. destruct (has_bbox rv); [apply put_cell_length | reflexivity]. }
  rewrite G. apply repeat_length.
Qed.

(** X15. The grid handed to the CSV and JSON writers is rectangular and
    has no empty row: all its rows have the same number of cells, at
    least one. With boxes on the page there is one grid row per visual
    row and one cell per column; without any there is one row per line. *)
Theorem grid_is_rectangular (record_views : list RecordView) (page_width : Z) :
  exists n : nat,
    (1 <= n)%nat
    /\ Forall (fun line => length line = n) (build_grid record_views page_width)
    /\ (existsb has_bbox record_views = true ->
        n = length (cluster_columns record_views 45)
        /\ length (build_grid record_views page_width)
           = length (group_rows_by_y record_views page_width))
    /\ (existsb has_bbox record_views = false ->
        n = 1%nat /\ length (build_grid record_views page_width) = length record_views).
Proof.
  unfold build_grid. destruct (existsb has_bbox record_views) eqn:E.
  - exists (length (cluster_columns record_views 45)).
    assert (Hpos : (1 <= length (cluster_columns record_views 45))%nat).
    { pose proof (cluster_columns_perm record_views 45) as P.
      apply existsb_exists in E as (rv & Hin & Hb).
      assert (Hf : In rv (filter has_bbox record_views)) by (apply filter_In; auto).
      apply (Permutation_in _ (Permutation_sym P)) in Hf.
      destruct (cluster_columns record_views 45); [destruct Hf | simpl; lia]. }
    split; [exact Hpos|]. split; [|split; [|discriminate]].
    + unfold table_to_rows. apply Forall_map, Forall_forall. intros row _.
      rewrite grid_line_length, length_map. lia.
    + intros _. split; [reflexivity|]. unfold table_to_rows. now rewrite length_map.
  - exists 1%nat. split; [lia|]. split; [|split; [discriminate|]].
    + apply Forall_map, Forall_forall. now intros.
    + intros _. split; [reflexivity | now rewrite length_map].
Qed.

Lemma nearest_from_bound (x : Z) (rest : list Z) (i best_i : nat) (best_d : Z) :
  (best_i < i)%nat -> (nearest_from x i rest best_i best_d < i + length rest)%nat.
Proof.
  revert i best_i best_d; induction rest as [|cx t IH]; intros i best_i best_d H; simpl.
  - lia.
  - destruct (Z.abs (cx - x) <? best_d).
    + specialize (IH (S i) i (Z.abs (cx - x)) ltac:(lia)). lia.
    + specialize (IH (S i) best_i best_d ltac:(lia)). lia.
Qed.

Lemma nearest_col_bound (col_x : list Z) (x : Z) :
  (nearest_col col_x x < Nat.max 1 (length col_x))%nat.
Proof.
  destruct col_x as [|c0 rest]; simpl; [lia|].
  pose proof (nearest_from_bound x rest 1 0 (Z.abs (c0 - x)) ltac:(lia)). lia.
Qed.

Lemma occurs_in_grows (t cell more : text) : occurs_in t cell -> occurs_in t (cell ++ more).
Proof.
  intros (pre & post & ->). exists pre, (post ++ more). now rewrite <- !app_assoc.
Qed.

Lemma put_cell_keeps (line : list text) (c : nat) (t t' : text) :
  (exists cell, In cell line /\ occurs_in t cell) ->
  exists cell, In cell (put_cell line c t') /\ occurs_in t cell.
Proof.
  revert c; induction line as [|cell0 rest IH]; intros c (cell & Hin & Hocc);
    [destruct Hin|].
  destruct c as [|c']; cbn [put_cell].
  - destruct Hin as [<-|Hin].
    + destruct cell0 as [|ch cs].
      * exists t'. split; [now left|].
        destruct Hocc as (pre & post & E). symmetry in E.
        apply app_eq_nil in E as [-> E]. apply app_eq_nil in E as [-> _].
        now exists [], t'.
      * eexists. split; [now left|]. now apply occurs_in_grows.
    + exists cell. split; [now right | assumption].
  - destruct Hin as [<-|Hin].
    + exists cell0. split; [now left | assumption].
    + destruct (IH c' (ex_intro _ cell (conj Hin Hocc))) as (cell' & Hin' & Hocc').
      exists cell'. split; [now right | assumption].
Qed.

Lemma put_cell_holds (line : list text) (c : nat) (t : text) :
  (c < length line)%nat -> exists cell, In cell (put_cell line c t) /\ occurs_in t cell.
Proof.
  revert c; induction line as [|cell0 rest IH]; intros c H; simpl in H; [lia|].
  destruct c as [|c']; cbn [put_cell].
  - destruct cell0 as [|ch cs].
    + exists t. split; [now left|]. exists [], []. now rewrite app_nil_r.
    + eexists. split; [now left|]. exists ((ch :: cs) ++ codes " "), [].
      now rewrite app_nil_r, <- app_assoc.
  - destruct (IH c' ltac:(lia)) as (cell & Hin & Hocc).
    exists cell. split; [now right | assumption].
Qed.

Lemma grid_line_keeps_text (col_x : list Z) (row : list RecordView) (rv : RecordView) :
  In rv row -> has_bbox rv = true ->
  exists cell, In cell (grid_line col_x row) /\ occurs_in (rv_text rv) cell.
Proof.
  unfold grid_line.
  set (step := fun (line : list text) (v : RecordView) =>
                 if has_bbox v then put_cell line (nearest_col col_x (view_x0 v)) (rv_text v)
                 else line).
  assert (Hlen : forall line v, length (step line v) = length line).
  { intros line v. unfold step. destruct (has_bbox v); [apply put_cell_length | reflexivity]. }
  assert (Hkeep : forall rest line,
             (exists cell, In cell line /\ occurs_in (rv_text rv) cell) ->
             exists cell, In cell (fold_left step rest line) /\ occurs_in (rv_text rv) cell).
  { induction rest as [|v t IH]; intros line H; simpl; [exact H|].
    apply IH. unfold step. destruct (has_bbox v); [now apply put_cell_keeps | exact H]. }
  intros Hin Hb.
  assert (G : forall line, length line = Nat.max 1 (length col_x) ->
             exists cell, In cell (fold_left step row line) /\ occurs_in (rv_text rv) cell).
  { induction row as [|v t IH]; intros line Hl; [destruct Hin|].
    simpl. destruct Hin as [->|Hin].
    - apply Hkeep. unfold step. rewrite Hb. apply put_cell_holds.
      rewrite Hl. apply nearest_col_bound.
    - apply IH; [exact Hin|]. now rewrite Hlen. }
  apply G, repeat_length.
Qed.

(** X16. No text of a line with a box is lost between the record views
    and the table: each such line's text occurs in some cell of the
    grid, alone or joined to the texts that share its cell. *)
Theorem table_keeps_boxed_text (records : list RecordView) (page_width : Z) (rv : RecordView) :
  In rv records -> has_bbox rv = true ->
  exists line cell,
    In line (table_to_rows records page_width) /\ In cell line
    /\ occurs_in (rv_text rv) cell.
Proof.
  intros Hin Hb.
  assert (Hf : In rv (filter has_bbox records)) by (apply filter_In; auto).
  apply (Permutation_in _ (Permutation_sym (group_rows_perm records page_width))) in Hf.
  apply in_concat in Hf as (row & Hrow & Hrv).
  destruct (grid_line_keeps_text
              (map column_x (cluster_columns records 45)) row rv Hrv Hb) as (cell & Hc & Ho).
  exists (grid_line (map column_x (cluster_columns records 45)) row), cell.
  split; [|auto]. unfold table_to_rows. now apply in_map.
Qed.

Lemma table_keeps_boxed_text_witness :
  exists line cell,
    In line (table_to_rows small_table 1000) /\ In cell line
    /\ occurs_in (rv_text (box_view 600 12 700 32 "b")) cell.
Proof.
  apply table_keeps_boxed_text; [right; left; reflexivity | reflexivity].
Defined.

(** ** Snapshots, undo and redo *)

Lemma snapshot_renumber (i : Z) (recs : list RecordView) :
  _snapshot_recs (renumber_from i recs) = _snapshot_recs recs.
Proof.
  revert i; induction recs as [|rv t IH]; intros i; simpl; [reflexivity|].
  now rewrite IH.
Qed.

Lemma snapshot_restore_from (i : Z) (snapshot : list LineState) :
  _snapshot_recs (restore_from i snapshot) = snapshot.
Proof.
  revert i; induction snapshot as [|[t bb] rest IH]; intros i; simpl; [reflexivity|].
  now rewrite IH.
Qed.

Lemma restore_snapshot_from (i : Z) (recs : list RecordView) :
  restore_from i (_snapshot_recs recs) = renumber_from i recs.
Proof.
  revert i; induction recs as [|rv t IH]; intros i; simpl; [reflexivity|].
  now rewrite IH.
Qed.

Lemma renumber_idem (i : Z) (recs : list RecordView) :
  renumber_from i (renumber_from i recs) = renumber_from i recs.
Proof.
  revert i; induction recs as [|rv t IH]; intros i; simpl; [reflexivity|].
  now rewrite IH.
Qed.

Lemma texts_of_snapshot (recs : list RecordView) :
  map rv_text recs = map fst (_snapshot_recs recs).
Proof. unfold _snapshot_recs. now rewrite map_map. Qed.

Lemma page_text_of_snapshot (a b : list RecordView) :
  _snapshot_recs a = _snapshot_recs b -> page_text a = page_text b.
Proof. intros H. unfold page_text. now rewrite !texts_of_snapshot, H. Qed.

(** X17. Restoring a snapshot and taking a snapshot again gives the
    snapshot back; taking a snapshot of the lines and restoring it gives
    the lines back with their texts and boxes, numbered by position. *)
Theorem snapshot_restore_round_trip (snapshot : list LineState) (recs : list RecordView) :
  _snapshot_recs (_restore_recs snapshot) = snapshot
  /\ _restore_recs (_snapshot_recs recs) = renumber_from 0 recs
  /\ _snapshot_recs (_restore_recs (_snapshot_recs recs)) = _snapshot_recs recs.
Proof.
  unfold _restore_recs. repeat split.
  - apply snapshot_restore_from.
  - apply restore_snapshot_from.
  - apply snapshot_restore_from.
Qed.

Lemma pop_last_app {A : Type} (l : list A) (x : A) : pop_last (l ++ [x]) = Some (l, x).
Proof.
  induction l as [|y t IH]; simpl; [reflexivity|]. now rewrite IH.
Qed.






Lemma sync_in_step (task : TaskItem) : in_step (_sync_ui_after_recs_change task).
Proof.
  unfold _sync_ui_after_recs_change, in_step.
  destruct (results task) as [r|] eqn:R; cbn [results]; [|now rewrite R].
  cbn [res_recs res_text]. split; [apply renumber_idem|].
  apply page_text_of_snapshot. now rewrite snapshot_renumber.
Qed.

Lemma renumber_restore (i : Z) (snapshot : list LineState) :
  renumber_from i (restore_from i snapshot) = restore_from i snapshot.
Proof.
  revert i; induction snapshot as [|[t bb] rest IH]; intros i; simpl; [reflexivity|].
  now rewrite IH.
Qed.

Lemma apply_snapshot_fields (task : TaskItem) (snap : UndoSnapshot) (r : Results) :
  results task = Some r ->
  _apply_snapshot task snap
  = mkTask (status task)
           (Some (mkResults (page_text (_restore_recs (fst snap))) (res_kr_records r)
                    (res_im r) (_restore_recs (fst snap))))
           true (undo_stack task) (redo_stack task).
Proof.
  intros R. unfold _apply_snapshot, _sync_ui_after_recs_change. rewrite R.
  cbn [results res_recs res_kr_records res_im status edited undo_stack redo_stack].
  unfold _restore_recs. now rewrite renumber_restore.
Qed.

Lemma apply_snapshot_in_step (task : TaskItem) (snap : UndoSnapshot) :
  in_step task -> in_step (_apply_snapshot task snap).
Proof.
  intros H. unfold _apply_snapshot.
  destruct (results task) eqn:R; [apply sync_in_step | exact H].
Qed.







(** X21. Redo takes back an undo: on a finished page with a snapshot to
    undo, undo followed by redo gives the lines their texts and boxes
    back, leaves the redo stack as it was, and leaves the undo stack as
    it was up to the selected row kept in its top snapshot. *)
Theorem undo_then_redo_round_trip
    (task : TaskItem) (r : Results) (rest : list UndoSnapshot) (snap : UndoSnapshot)
    (sel1 sel2 : Z) :
  status task = STATUS_DONE ->
  results task = Some r ->
  undo_stack task = rest ++ [snap] ->
  exists r',
    results (redo (undo task sel1) sel2) = Some r'
    /\ _snapshot_recs (res_recs r') = _snapshot_recs (res_recs r)
    /\ res_text r' = page_text (res_recs r)
    /\ undo_stack (redo (undo task sel1) sel2) = rest ++ [(fst snap, sel2)]
    /\ redo_stack (redo (undo task sel1) sel2) = redo_stack task.
Proof.
  intros St R U.
  assert (E1 : undo task sel1
               = mkTask STATUS_DONE
                   (Some (mkResults (page_text (_restore_recs (fst snap))) (res_kr_records r)
                            (res_im r) (_restore_recs (fst snap))))
                   true rest (redo_stack task ++ [(_snapshot_recs (res_recs r), sel1)])).
  { unfold undo. rewrite St, R, U, pop_last_app.
    cbn [Z.eqb STATUS_DONE negb Pos.eqb].
    now erewrite apply_snapshot_fields by reflexivity. }
  rewrite E1. clear E1.
  unfold redo. cbn [status results undo_stack redo_stack res_recs].
  cbn [Z.eqb STATUS_DONE negb Pos.eqb]. rewrite pop_last_app.
  erewrite apply_snapshot_fields by reflexivity.
  cbn [results undo_stack redo_stack fst res_recs res_text status].
  eexists. split; [reflexivity|]. cbn [res_recs res_text].
  unfold _restore_recs. rewrite !snapshot_restore_from.
  split; [reflexivity|].
  split; [apply page_text_of_snapshot, snapshot_restore_from|].
  split; reflexivity.
Qed.

Lemma undo_then_redo_round_trip_witness :
  exists r',
    results (redo (undo three_line_task_edited 0) 5) = Some r'
    /\ _snapshot_recs (res_recs r')
       = _snapshot_recs [mkView 0 (codes "a") (Some (10, 10, 100, 30));
                         mkView 1 (codes "c") (Some (10, 50, 100, 70))]
    /\ res_text r'
       = page_text [mkView 0 (codes "a") (Some (10, 10, 100, 30));
                    mkView 1 (codes "c") (Some (10, 50, 100, 70))]
    /\ undo_stack (redo (undo three_line_task_edited 0) 5)
       = [] ++ [(fst (_snapshot_recs three_lines, 1), 5)]
    /\ redo_stack (redo (undo three_line_task_edited 0) 5)
       = redo_stack three_line_task_edited.
Proof.
  apply (undo_then_redo_round_trip three_line_task_edited
           (mkResults
              (page_text [mkView 0 (codes "a") (Some (10, 10, 100, 30));
                          mkView 1 (codes "c") (Some (10, 50, 100, 70))])
              [] (800, 600)
              [mkView 0 (codes "a") (Some (10, 10, 100, 30));
               mkView 1 (codes "c") (Some (10, 50, 100, 70))])
           [] (_snapshot_recs three_lines, 1) 0 5); reflexivity.
Defined.

(** ** Editing actions *)











(** ** Moving, adding and deleting lines *)

Lemma firstn_exact {A : Type} (l1 l2 : list A) : firstn (length l1) (l1 ++ l2) = l1.
Proof. induction l1 as [|x t IH]; simpl; [now destruct l2 | now rewrite IH]. Qed.

Lemma skipn_exact {A : Type} (l1 l2 : list A) : skipn (length l1) (l1 ++ l2) = l2.
Proof. induction l1 as [|x t IH]; simpl; [reflexivity | exact IH]. Qed.

Lemma nth_error_exact {A : Type} (l1 l2 : list A) (x : A) :
  nth_error (l1 ++ x :: l2) (length l1) = Some x.
Proof. induction l1 as [|y t IH]; simpl; [reflexivity | exact IH]. Qed.

Lemma nth_error_list_insert {A : Type} (n : nat) (x : A) (l : list A) :
  (n <= length l)%nat -> nth_error (list_insert n x l) n = Some x.
Proof.
  intros H. unfold list_insert.
  rewrite <- (firstn_length_le l H) at 3. apply nth_error_exact.
Qed.

Lemma list_pop_insert {A : Type} (n : nat) (x : A) (l : list A) :
  (n <= length l)%nat -> list_pop n (list_insert n x l) = l.
Proof.
  intros H. unfold list_pop, list_insert.
  pose proof (firstn_length_le l H) as L.
  rewrite <- L at 1. rewrite firstn_exact.
  change (S n) with (1 + n)%nat. rewrite <- skipn_skipn.
  rewrite <- L at 2. rewrite skipn_exact. simpl. apply firstn_skipn.
Qed.

Lemma list_insert_pop_perm {A : Type} (n m : nat) (x : A) (l : list A) :
  nth_error l m = Some x -> Permutation (list_insert n x (list_pop m l)) l.
Proof.
  intros H. unfold list_insert.
  eapply perm_trans; [apply Permutation_sym, Permutation_middle|].
  rewrite firstn_skipn. unfold list_pop.
  eapply perm_trans; [apply Permutation_middle|].
  now rewrite (firstn_skipn_middle m l H).
Qed.

Lemma map_list_pop {A B : Type} (f : A -> B) (n : nat) (l : list A) :
  map f (list_pop n l) = list_pop n (map f l).
Proof. unfold list_pop. now rewrite map_app, firstn_map, skipn_map. Qed.

Lemma map_list_insert {A B : Type} (f : A -> B) (n : nat) (x : A) (l : list A) :
  map f (list_insert n x l) = list_insert n (f x) (map f l).
Proof. unfold list_insert. rewrite map_app. simpl. now rewrite firstn_map, skipn_map. Qed.

Lemma map_list_set {A B : Type} (f : A -> B) (n : nat) (x : A) (l : list A) :
  map f (list_set n x l) = list_set n (f x) (map f l).
Proof.
  unfold list_set. rewrite length_map. destruct (n <? length l)%nat; [|reflexivity].
  rewrite map_app. cbn [map]. now rewrite firstn_map, skipn_map.
Qed.

Lemma length_list_pop {A : Type} (n : nat) (l : list A) :
  (n < length l)%nat -> S (length (list_pop n l)) = length l.
Proof.
  intros H. unfold list_pop. rewrite length_app, length_firstn, length_skipn. lia.
Qed.

Lemma length_list_insert {A : Type} (n : nat) (x : A) (l : list A) :
  length (list_insert n x l) = S (length l).
Proof.
  unfold list_insert. rewrite length_app. cbn [length].
  rewrite length_firstn, length_skipn. lia.
Qed.

Lemma length_list_set {A : Type} (n : nat) (x : A) (l : list A) :
  length (list_set n x l) = length l.
Proof.
  unfold list_set. destruct (n <? length l)%nat eqn:E; [|reflexivity].
  apply Nat.ltb_lt in E. rewrite length_app. cbn [length].
  rewrite length_firstn, length_skipn. lia.
Qed.

Lemma nth_error_list_set {A : Type} (n k : nat) (x : A) (l : list A) :
  (n < length l)%nat ->
  nth_error (list_set n x l) k = if (k =? n)%nat then Some x else nth_error l k.
Proof.
  intros H. unfold list_set.
  replace (n <? length l)%nat with true by (symmetry; now apply Nat.ltb_lt).
  assert (L : length (firstn n l) = n) by (apply firstn_length_le; lia).
  destruct (k =? n)%nat eqn:E.
  - apply Nat.eqb_eq in E. subst k. rewrite <- L at 3. apply nth_error_exact.
  - apply Nat.eqb_neq in E. rewrite nth_error_app, L.
    destruct (k <? n)%nat eqn:E2.
    + apply Nat.ltb_lt in E2. rewrite nth_error_firstn.
      now replace (k <? n)%nat with true by (symmetry; now apply Nat.ltb_lt).
    + apply Nat.ltb_ge in E2. destruct (k - n)%nat as [|d] eqn:D; [lia|].
      cbn [nth_error]. rewrite nth_error_skipn. f_equal. lia.
Qed.

Lemma length_renumber (i : Z) (recs : list RecordView) :
  length (renumber_from i recs) = length recs.
Proof.
  rewrite <- (length_map (fun rv => (rv_text rv, rv_bbox rv)) (renumber_from i recs)).
  fold (_snapshot_recs (renumber_from i recs)). rewrite snapshot_renumber.
  apply length_map.
Qed.

Lemma row_in_range_nat {A : Type} (row : Z) (l : list A) :
  row_in_range row l = true <-> 0 <= row /\ (Z.to_nat row < length l)%nat.
Proof.
  unfold row_in_range. rewrite andb_true_iff, Z.leb_le, Z.ltb_lt. lia.
Qed.

Lemma sync_with_recs_results (task : TaskItem) (r : Results) (recs : list RecordView) :
  results (_sync_ui_after_recs_change (with_recs task r recs))
  = Some (mkResults (page_text (renumber_from 0 recs)) (res_kr_records r) (res_im r)
            (renumber_from 0 recs)).
Proof. reflexivity. Qed.

(** X23. Moving a line to another row neither loses nor repeats a line:
    for a row of the page, the line that was at [from_row] ends at the
    target row, clamped into the page, and the other lines keep their
    order; for any other [from_row] the task is left as it is. *)
Theorem move_line_to_moves_one_line (task : TaskItem) (r : Results) (from_row to_row sel : Z) :
  results task = Some r ->
  (row_in_range from_row (res_recs r) = true ->
   exists task' r',
     _move_line_to task from_row to_row sel = Ok task'
     /\ results task' = Some r'
     /\ nth_error (_snapshot_recs (res_recs r'))
          (Z.to_nat (Z.max 0 (Z.min (Z.of_nat (length (res_recs r)) - 1) to_row)))
        = nth_error (_snapshot_recs (res_recs r)) (Z.to_nat from_row)
     /\ list_pop (Z.to_nat (Z.max 0 (Z.min (Z.of_nat (length (res_recs r)) - 1) to_row)))
          (_snapshot_recs (res_recs r'))
        = list_pop (Z.to_nat from_row) (_snapshot_recs (res_recs r))
     /\ Permutation (_snapshot_recs (res_recs r')) (_snapshot_recs (res_recs r)))
  /\ (row_in_range from_row (res_recs r) = false ->
      _move_line_to task from_row to_row sel = Ok task).
Proof.
  intros R. unfold _move_line_to. rewrite R. split.
  - intros Hr. rewrite Hr. cbn [negb].
    apply row_in_range_nat in Hr as [H0 Hlt].
    set (target := Z.max 0 (Z.min (Z.of_nat (length (res_recs r)) - 1) to_row)).
    destruct (from_row =? target) eqn:E.
    + apply Z.eqb_eq in E. rewrite <- E.
      eexists. exists (mkResults (page_text (renumber_from 0 (res_recs r)))
                         (res_kr_records r) (res_im r) (renumber_from 0 (res_recs r))).
      split; [reflexivity|].
      split; [unfold _sync_ui_after_recs_change; now rewrite R|].
      cbn [res_recs]. rewrite snapshot_renumber. auto.
    + destruct (nth_error (res_recs r) (Z.to_nat from_row)) as [rv|] eqn:N.
      2:{ apply nth_error_None in N. lia. }
      eexists. eexists. split; [reflexivity|].
      split; [apply sync_with_recs_results|].
      cbn [res_recs]. rewrite snapshot_renumber. unfold _snapshot_recs.
      rewrite map_list_insert, map_list_pop.
      set (f := fun rv0 : RecordView => (rv_text rv0, rv_bbox rv0)).
      assert (Hn : nth_error (map f (res_recs r)) (Z.to_nat from_row) = Some (f rv))
        by now apply map_nth_error.
      assert (Hle : (Z.to_nat target
                     <= length (list_pop (Z.to_nat from_row) (map f (res_recs r))))%nat).
      { pose proof (length_list_pop (Z.to_nat from_row) (map f (res_recs r))) as L.
        rewrite length_map in L. specialize (L Hlt). unfold target. lia. }
      split; [|split].
      * etransitivity; [|symmetry; exact Hn]. now apply nth_error_list_insert.
      * now apply list_pop_insert.
      * now apply list_insert_pop_perm.
  - intros Hr. now rewrite Hr.
Qed.

Lemma move_line_to_moves_one_line_witness :
  (row_in_range 0 (res_recs (mkResults (page_text three_lines) [] (800, 600) three_lines))
   = true ->
   exists task' r',
     _move_line_to three_line_task 0 7 1 = Ok task'
     /\ results task' = Some r'
     /\ nth_error (_snapshot_recs (res_recs r'))
          (Z.to_nat (Z.max 0 (Z.min (Z.of_nat (length (res_recs
             (mkResults (page_text three_lines) [] (800, 600) three_lines))) - 1) 7)))
        = nth_error (_snapshot_recs (res_recs
             (mkResults (page_text three_lines) [] (800, 600) three_lines))) (Z.to_nat 0)
     /\ list_pop (Z.to_nat (Z.max 0 (Z.min (Z.of_nat (length (res_recs
             (mkResults (page_text three_lines) [] (800, 600) three_lines))) - 1) 7)))
          (_snapshot_recs (res_recs r'))
        = list_pop (Z.to_nat 0) (_snapshot_recs (res_recs
             (mkResults (page_text three_lines) [] (800, 600) three_lines)))
     /\ Permutation (_snapshot_recs (res_recs r'))
          (_snapshot_recs (res_recs
             (mkResults (page_text three_lines) [] (800, 600) three_lines))))
  /\ (row_in_range 0 (res_recs (mkResults (page_text three_lines) [] (800, 600) three_lines))
      = false ->
      _move_line_to three_line_task 0 7 1 = Ok three_line_task).
Proof.
  apply (move_line_to_moves_one_line three_line_task
           (mkResults (page_text three_lines) [] (800, 600) three_lines) 0 7 1).
  reflexivity.
Defined.

Lemma snapshot_list_pop (n : nat) (recs : list RecordView) :
  _snapshot_recs (list_pop n recs) = list_pop n (_snapshot_recs recs).
Proof. apply map_list_pop. Qed.

Lemma snapshot_list_insert (n : nat) (rv : RecordView) (recs : list RecordView) :
  _snapshot_recs (list_insert n rv recs)
  = list_insert n (rv_text rv, rv_bbox rv) (_snapshot_recs recs).
Proof. apply (map_list_insert (fun v => (rv_text v, rv_bbox v))). Qed.

Lemma snapshot_list_set (n : nat) (rv : RecordView) (recs : list RecordView) :
  _snapshot_recs (list_set n rv recs)
  = list_set n (rv_text rv, rv_bbox rv) (_snapshot_recs recs).
Proof. apply (map_list_set (fun v => (rv_text v, rv_bbox v))). Qed.

Lemma snapshot_nth_error (n : nat) (rv : RecordView) (recs : list RecordView) :
  nth_error recs n = Some rv ->
  nth_error (_snapshot_recs recs) n = Some (rv_text rv, rv_bbox rv).
Proof. apply (map_nth_error (fun v => (rv_text v, rv_bbox v))). Qed.

Lemma snapshot_length (recs : list RecordView) :
  length (_snapshot_recs recs) = length recs.
Proof. apply length_map. Qed.

(** X24. Adding a line and deleting the row it went to gives the lines
    back: a line added with a text that is not blank sits, stripped and
    without a box, at the requested row clamped into [0 .. len], the
    page has one line more, and deleting that row restores the texts and
    boxes of all lines. A cancelled dialog or a blank text adds nothing. *)
Theorem add_then_delete_round_trip
    (task : TaskItem) (r : Results) (insert_row sel sel' : Z) (txt : text) :
  results task = Some r ->
  _add_line task insert_row None sel = Ok task
  /\ (strip txt = [] -> _add_line task insert_row (Some txt) sel = Ok task)
  /\ (strip txt <> [] ->
      exists t1 r1 t2 r2,
        _add_line task insert_row (Some txt) sel = Ok t1
        /\ results t1 = Some r1
        /\ length (res_recs r1) = S (length (res_recs r))
        /\ nth_error (_snapshot_recs (res_recs r1))
             (Z.to_nat (Z.max 0 (Z.min (Z.of_nat (length (res_recs r))) insert_row)))
           = Some (strip txt, None)
        /\ _delete_line t1 (Z.max 0 (Z.min (Z.of_nat (length (res_recs r))) insert_row)) sel'
           = Ok t2
        /\ results t2 = Some r2
        /\ _snapshot_recs (res_recs r2) = _snapshot_recs (res_recs r)).
Proof.
  intros R. split; [reflexivity|]. split.
  { intros E. unfold _add_line. now rewrite E. }
  intros Hne. unfold _add_line.
  destruct (strip txt) as [|c cs] eqn:St; [congruence|]. rewrite R.
  set (row' := Z.max 0 (Z.min (Z.of_nat (length (res_recs r))) insert_row)).
  set (v := mkView row' (c :: cs) None).
  set (recs1 := renumber_from 0 (list_insert (Z.to_nat row') v (res_recs r))).
  set (t1 := _sync_ui_after_recs_change
               (with_recs (_push_undo task sel) r
                  (list_insert (Z.to_nat row') v (res_recs r)))).
  assert (R1 : results t1
               = Some (mkResults (page_text recs1) (res_kr_records r) (res_im r) recs1))
    by reflexivity.
  assert (L1 : length recs1 = S (length (res_recs r))).
  { unfold recs1. now rewrite length_renumber, length_list_insert. }
  assert (In1 : row_in_range row' recs1 = true).
  { apply row_in_range_nat. rewrite L1. unfold row'. lia. }
  assert (Hle : (Z.to_nat row' <= length (_snapshot_recs (res_recs r)))%nat).
  { rewrite snapshot_length. unfold row'. lia. }
  exists t1. eexists. eexists. eexists.
  split; [reflexivity|]. split; [exact R1|]. cbn [res_recs].
  split; [exact L1|]. split.
  { unfold recs1. rewrite snapshot_renumber, snapshot_list_insert.
    now apply nth_error_list_insert. }
  split.
  { unfold _delete_line. rewrite R1. cbn [res_recs]. rewrite In1. reflexivity. }
  split; [apply sync_with_recs_results|].
  cbn [res_recs]. rewrite snapshot_renumber, snapshot_list_pop. unfold recs1.
  rewrite snapshot_renumber, snapshot_list_insert.
  now apply list_pop_insert.
Qed.

Lemma add_then_delete_round_trip_witness :
  _add_line three_line_task 1 None 0 = Ok three_line_task
  /\ (strip (codes " new ") = [] ->
      _add_line three_line_task 1 (Some (codes " new ")) 0 = Ok three_line_task)
  /\ (strip (codes " new ") <> [] ->
      exists t1 r1 t2 r2,
        _add_line three_line_task 1 (Some (codes " new ")) 0 = Ok t1
        /\ results t1 = Some r1
        /\ length (res_recs r1)
           = S (length (res_recs (mkResults (page_text three_lines) [] (800, 600) three_lines)))
        /\ nth_error (_snapshot_recs (res_recs r1))
             (Z.to_nat (Z.max 0 (Z.min (Z.of_nat (length (res_recs
                (mkResults (page_text three_lines) [] (800, 600) three_lines)))) 1)))
           = Some (strip (codes " new "), None)
        /\ _delete_line t1
             (Z.max 0 (Z.min (Z.of_nat (length (res_recs
                (mkResults (page_text three_lines) [] (800, 600) three_lines)))) 1)) 2
           = Ok t2
        /\ results t2 = Some r2
        /\ _snapshot_recs (res_recs r2)
           = _snapshot_recs (res_recs
               (mkResults (page_text three_lines) [] (800, 600) three_lines))).
Proof.
  apply (add_then_delete_round_trip three_line_task
           (mkResults (page_text three_lines) [] (800, 600) three_lines) 1 0 2
           (codes " new ")).
  reflexivity.
Defined.

Lemma swap_back {A : Type} (l : list A) (i j : nat) (sa sb a2 b2 : A) :
  nth_error l i = Some sb ->
  nth_error l j = Some sa ->
  nth_error (list_set j sb (list_set i sa l)) i = Some a2 ->
  nth_error (list_set j sb (list_set i sa l)) j = Some b2 ->
  list_set i b2 (list_set j a2 (list_set j sb (list_set i sa l))) = l.
Proof.
  intros Hi Hj H3 H4.
  assert (Li : (i < length l)%nat) by (apply nth_error_Some; congruence).
  assert (Lj : (j < length l)%nat) by (apply nth_error_Some; congruence).
  rewrite !nth_error_list_set in H3, H4 by (rewrite ?length_list_set; assumption).
  rewrite Nat.eqb_refl in H3, H4. injection H4 as <-.
  apply nth_error_ext. intros k.
  rewrite !nth_error_list_set by (rewrite ?length_list_set; assumption).
  destruct (k =? i)%nat eqn:Ki.
  - apply Nat.eqb_eq in Ki. now subst k.
  - destruct (k =? j)%nat eqn:Kj; [|reflexivity].
    apply Nat.eqb_eq in Kj. subst k.
    rewrite Nat.eqb_sym in Ki. rewrite Ki in H3. congruence.
Qed.

(** X25. Moving a line by one step and moving it back gives the lines
    back: for two rows of the page, [_move_line] exchanges the two
    lines, and [_move_line] from the new row with the opposite direction
    restores the texts and boxes of all lines. *)
Theorem move_line_and_back_round_trip
    (task : TaskItem) (r : Results) (row direction sel sel' : Z) :
  results task = Some r ->
  row_in_range row (res_recs r) = true ->
  row_in_range (row + direction) (res_recs r) = true ->
  exists t1 r1 t2 r2,
    _move_line task row direction sel = Ok t1
    /\ results t1 = Some r1
    /\ nth_error (_snapshot_recs (res_recs r1)) (Z.to_nat row)
       = nth_error (_snapshot_recs (res_recs r)) (Z.to_nat (row + direction))
    /\ nth_error (_snapshot_recs (res_recs r1)) (Z.to_nat (row + direction))
       = nth_error (_snapshot_recs (res_recs r)) (Z.to_nat row)
    /\ _move_line t1 (row + direction) (- direction) sel' = Ok t2
    /\ results t2 = Some r2
    /\ _snapshot_recs (res_recs r2) = _snapshot_recs (res_recs r).
Proof.
  intros R Hrow Hnew. unfold _move_line at 1. rewrite R, Hrow, Hnew. cbn [negb orb].
  pose proof (proj1 (row_in_range_nat _ _) Hrow) as [_ Li].
  pose proof (proj1 (row_in_range_nat _ _) Hnew) as [_ Lj].
  set (i := Z.to_nat row) in *. set (j := Z.to_nat (row + direction)) in *.
  destruct (nth_error (res_recs r) j) as [a|] eqn:Na; [|apply nth_error_None in Na; lia].
  destruct (nth_error (res_recs r) i) as [b|] eqn:Nb; [|apply nth_error_None in Nb; lia].
  set (recs1 := renumber_from 0 (list_set j b (list_set i a (res_recs r)))).
  set (t1 := _sync_ui_after_recs_change
               (with_recs (_push_undo task sel) r (list_set j b (list_set i a (res_recs r))))).
  assert (R1 : results t1
               = Some (mkResults (page_text recs1) (res_kr_records r) (res_im r) recs1))
    by reflexivity.
  assert (L1 : length recs1 = length (res_recs r)).
  { unfold recs1. now rewrite length_renumber, !length_list_set. }
  assert (S1 : _snapshot_recs recs1
               = list_set j (rv_text b, rv_bbox b)
                   (list_set i (rv_text a, rv_bbox a) (_snapshot_recs (res_recs r)))).
  { unfold recs1. now rewrite snapshot_renumber, !snapshot_list_set. }
  pose proof (snapshot_nth_error _ _ _ Na) as Sa.
  pose proof (snapshot_nth_error _ _ _ Nb) as Sb.
  assert (Lsi : (i < length (_snapshot_recs (res_recs r)))%nat)
    by now rewrite snapshot_length.
  assert (Lsj : (j < length (_snapshot_recs (res_recs r)))%nat)
    by now rewrite snapshot_length.
  assert (Hrow1 : row_in_range (row + direction) recs1 = true).
  { apply row_in_range_nat. rewrite L1. apply row_in_range_nat in Hnew. exact Hnew. }
  assert (Hnew1 : row_in_range (row + direction + - direction) recs1 = true).
  { replace (row + direction + - direction) with row by lia.
    apply row_in_range_nat. rewrite L1. apply row_in_range_nat in Hrow. exact Hrow. }
  exists t1. eexists.
  destruct (nth_error recs1 i) as [a2|] eqn:Na2; [|apply nth_error_None in Na2; lia].
  destruct (nth_error recs1 j) as [b2|] eqn:Nb2; [|apply nth_error_None in Nb2; lia].
  eexists. eexists.
  split; [reflexivity|]. split; [exact R1|]. cbn [res_recs].
  split.
  { rewrite S1, !nth_error_list_set by (rewrite ?length_list_set; assumption).
    rewrite Nat.eqb_refl. destruct (i =? j)%nat eqn:E; [|now rewrite Sa].
    apply Nat.eqb_eq in E. rewrite <- E. now rewrite Sb. }
  split.
  { rewrite S1, !nth_error_list_set by (rewrite ?length_list_set; assumption).
    now rewrite Nat.eqb_refl, Sb. }
  split.
  { unfold _move_line. rewrite R1. cbn [res_recs]. rewrite Hrow1, Hnew1. cbn [negb orb].
    replace (Z.to_nat (row + direction + - direction)) with i by (unfold i; f_equal; lia).
    fold j. rewrite Na2, Nb2. reflexivity. }
  split; [apply sync_with_recs_results|].
  cbn [res_recs]. rewrite snapshot_renumber, !snapshot_list_set, S1.
  pose proof (snapshot_nth_error _ _ _ Na2) as Sa2.
  pose proof (snapshot_nth_error _ _ _ Nb2) as Sb2.
  rewrite S1 in Sa2, Sb2.
  now apply swap_back.
Qed.

Lemma move_line_and_back_round_trip_witness :
  exists t1 r1 t2 r2,
    _move_line three_line_task 0 1 0 = Ok t1
    /\ results t1 = Some r1
    /\ nth_error (_snapshot_recs (res_recs r1)) (Z.to_nat 0)
       = nth_error (_snapshot_recs (res_recs
           (mkResults (page_text three_lines) [] (800, 600) three_lines))) (Z.to_nat (0 + 1))
    /\ nth_error (_snapshot_recs (res_recs r1)) (Z.to_nat (0 + 1))
       = nth_error (_snapshot_recs (res_recs
           (mkResults (page_text three_lines) [] (800, 600) three_lines))) (Z.to_nat 0)
    /\ _move_line t1 (0 + 1) (- (1)) 1 = Ok t2
    /\ results t2 = Some r2
    /\ _snapshot_recs (res_recs r2)
       = _snapshot_recs (res_recs
           (mkResults (page_text three_lines) [] (800, 600) three_lines)).
Proof.
  apply (move_line_and_back_round_trip three_line_task
           (mkResults (page_text three_lines) [] (800, 600) three_lines) 0 1 0 1);
    reflexivity.
Defined.
